(** * generatesnippet: a verification development for [src/extension.ts]

    The extension captures the selected text of an editor, asks for a name,
    trigger prefixes, a description and a language, and merges the new
    snippet into the per-language snippet file of the host editor.

    The TypeScript functions are embedded shallowly and keep their names:
    [escapeSnippetText], [parseSnippetsFile], [formatParseErrors],
    [determineLanguage], [collectSnippetInfo], [getEditorInfo],
    [saveSnippet] and the command handler [createSnippet], with the table
    [supportedLanguages].

    JavaScript strings are modelled as [string], one [ascii] per code unit
    (code units below 256).  The collaborators the extension imports and
    does not define ([jsonc.parse], [path.join], [path.dirname]) are the
    fields of the class [Platform]. *)

From Stdlib Require Import ZArith Ascii List Lia.
From Stdlib Require String.
From stdpp Require Import base tactics option list sorting strings pretty gmap.

(** ** Characters the source names by escape sequences *)

Definition LF : ascii := "010"%char.
Definition TAB : ascii := "009"%char.
Definition CR : ascii := "013"%char.
Definition BACKSLASH : ascii := "092"%char.
Definition DQUOTE : ascii := "034"%char.

Definition chr (c : ascii) : string := String c "".
Definition nl : string := chr LF.

(** ** The JavaScript string methods the extension calls *)

Module JSString.

(** [s.replace(/c/g, r)] for a one-character pattern [c]. *)
Fixpoint replaceAll (c : ascii) (r : string) (s : string) : string :=
  match s with
  | "" => ""
  | String d s' =>
      if Ascii.eqb d c then r +:+ replaceAll c r s'
      else String d (replaceAll c r s')
  end.

(** [s.split(c)] for a one-character separator: never the empty list. *)
Fixpoint split (c : ascii) (s : string) : list string :=
  match s with
  | "" => [""]
  | String d s' =>
      if Ascii.eqb d c then "" :: split c s'
      else match split c s' with
           | h :: t => String d h :: t
           | [] => [String d ""]
           end
  end.

(** [l.join(sep)]. *)
Fixpoint join (sep : string) (l : list string) : string :=
  match l with
  | [] => ""
  | [x] => x
  | x :: l' => x +:+ sep +:+ join sep l'
  end.

(** Number of occurrences of a character. *)
Fixpoint count (c : ascii) (s : string) : nat :=
  match s with
  | "" => 0
  | String d s' => (if Ascii.eqb d c then 1 else 0) + count c s'
  end.

(** [s.slice(0, n)]. *)
Fixpoint slice0 (n : nat) (s : string) : string :=
  match n, s with
  | S n', String d s' => String d (slice0 n' s')
  | _, _ => ""
  end.

(** Index of the last occurrence of [c] in [s], if any. *)
Fixpoint lastOccurrence (c : ascii) (s : string) : option nat :=
  match s with
  | "" => None
  | String d s' =>
      match lastOccurrence c s' with
      | Some i => Some (S i)
      | None => if Ascii.eqb d c then Some 0 else None
      end
  end.

(** [s.lastIndexOf(c, from)]: the search runs backwards from position
    [from], that position included; [-1] when nothing is found. *)
Definition lastIndexOf (c : ascii) (s : string) (from : nat) : Z :=
  match lastOccurrence c (slice0 (S from) s) with
  | Some i => Z.of_nat i
  | None => (-1)%Z
  end.

(** [s.includes(sub)]. *)
Fixpoint includes (sub s : string) : bool :=
  String.prefix sub s ||
  match s with
  | "" => false
  | String _ s' => includes sub s'
  end.

(** White space of [trim] among the code units below 256. *)
Definition isWhiteSpace (c : ascii) : bool :=
  match nat_of_ascii c with
  | 9 | 10 | 11 | 12 | 13 | 32 | 160 => true
  | _ => false
  end.

Fixpoint trimStart (s : string) : string :=
  match s with
  | "" => ""
  | String d s' => if isWhiteSpace d then trimStart s' else s
  end.

Fixpoint trimEnd (s : string) : string :=
  match s with
  | "" => ""
  | String d s' =>
      match trimEnd s' with
      | "" => if isWhiteSpace d then "" else String d ""
      | t => String d t
      end
  end.

Definition trim (s : string) : string := trimEnd (trimStart s).

(** [toLowerCase] on the code units below 256. *)
Definition lowerChar (c : ascii) : ascii :=
  let n := nat_of_ascii c in
  if ((65 <=? n) && (n <=? 90)) || ((192 <=? n) && (n <=? 222) && negb (n =? 215))
  then ascii_of_nat (n + 32) else c.

Fixpoint toLowerCase (s : string) : string :=
  match s with
  | "" => ""
  | String d s' => String (lowerChar d) (toLowerCase s')
  end.

(** Truthiness of a string: only the empty string is falsy. *)
Definition truthy (s : string) : bool :=
  match s with "" => false | _ => true end.

End JSString.

(** ** Supported languages *)

Module LanguageOption.
Record t : Type := { id : string; label : string }.
End LanguageOption.

(** The programming languages the extension lists, with their display
    labels. *)
Definition supportedLanguages : list LanguageOption.t := [
  {| LanguageOption.id := "bat"; LanguageOption.label := "bat (Batch)" |};
  {| LanguageOption.id := "bibtex"; LanguageOption.label := "bibtex (BibTeX)" |};
  {| LanguageOption.id := "c"; LanguageOption.label := "c (C)" |};
  {| LanguageOption.id := "clojure"; LanguageOption.label := "clojure (Clojure)" |};
  {| LanguageOption.id := "code-text-binary"; LanguageOption.label := "code-text-binary (Binary)" |};
  {| LanguageOption.id := "coffeescript"; LanguageOption.label := "coffeescript (CoffeeScript)" |};
  {| LanguageOption.id := "cpp"; LanguageOption.label := "cpp (C++)" |};
  {| LanguageOption.id := "csharp"; LanguageOption.label := "csharp (C#)" |};
  {| LanguageOption.id := "css"; LanguageOption.label := "css (CSS)" |};
  {| LanguageOption.id := "cuda-cpp"; LanguageOption.label := "cuda-cpp (CUDA C++)" |};
  {| LanguageOption.id := "dart"; LanguageOption.label := "dart (Dart)" |};
  {| LanguageOption.id := "diff"; LanguageOption.label := "diff (Diff)" |};
  {| LanguageOption.id := "dockerfile"; LanguageOption.label := "dockerfile (Docker)" |};
  {| LanguageOption.id := "dockercompose"; LanguageOption.label := "dockercompose (Compose)" |};
  {| LanguageOption.id := "editorconfig"; LanguageOption.label := "editorconfig (EditorConfig)" |};
  {| LanguageOption.id := "fsharp"; LanguageOption.label := "fsharp (F#)" |};
  {| LanguageOption.id := "git-commit"; LanguageOption.label := "git-commit (Git Commit Message)" |};
  {| LanguageOption.id := "git-rebase"; LanguageOption.label := "git-rebase (Git Rebase Message)" |};
  {| LanguageOption.id := "go"; LanguageOption.label := "go (Go)" |};
  {| LanguageOption.id := "graphql"; LanguageOption.label := "graphql (GraphQL)" |};
  {| LanguageOption.id := "groovy"; LanguageOption.label := "groovy (Groovy)" |};
  {| LanguageOption.id := "handlebars"; LanguageOption.label := "handlebars (Handlebars)" |};
  {| LanguageOption.id := "hlsl"; LanguageOption.label := "hlsl (HLSL)" |};
  {| LanguageOption.id := "html"; LanguageOption.label := "html (HTML)" |};
  {| LanguageOption.id := "ignore"; LanguageOption.label := "ignore (Ignore)" |};
  {| LanguageOption.id := "ini"; LanguageOption.label := "ini (Ini)" |};
  {| LanguageOption.id := "jade"; LanguageOption.label := "jade (Pug)" |};
  {| LanguageOption.id := "java"; LanguageOption.label := "java (Java)" |};
  {| LanguageOption.id := "javascript"; LanguageOption.label := "javascript (JavaScript)" |};
  {| LanguageOption.id := "javascriptreact"; LanguageOption.label := "javascriptreact (JavaScript JSX)" |};
  {| LanguageOption.id := "json"; LanguageOption.label := "json (JSON)" |};
  {| LanguageOption.id := "jsonc"; LanguageOption.label := "jsonc (JSON with Comments)" |};
  {| LanguageOption.id := "jsonl"; LanguageOption.label := "jsonl (JSON Lines)" |};
  {| LanguageOption.id := "julia"; LanguageOption.label := "julia (Julia)" |};
  {| LanguageOption.id := "juliamarkdown"; LanguageOption.label := "juliamarkdown (Julia Markdown)" |};
  {| LanguageOption.id := "lua"; LanguageOption.label := "lua (Lua)" |};
  {| LanguageOption.id := "latex"; LanguageOption.label := "latex (LaTeX)" |};
  {| LanguageOption.id := "less"; LanguageOption.label := "less (Less)" |};
  {| LanguageOption.id := "log"; LanguageOption.label := "log (Log)" |};
  {| LanguageOption.id := "makefile"; LanguageOption.label := "makefile (Makefile)" |};
  {| LanguageOption.id := "markdown"; LanguageOption.label := "markdown (Markdown)" |};
  {| LanguageOption.id := "objective-c"; LanguageOption.label := "objective-c (Objective-C)" |};
  {| LanguageOption.id := "objective-cpp"; LanguageOption.label := "objective-cpp (Objective-C++)" |};
  {| LanguageOption.id := "ocaml"; LanguageOption.label := "ocaml (OCaml)" |};
  {| LanguageOption.id := "perl"; LanguageOption.label := "perl (Perl)" |};
  {| LanguageOption.id := "php"; LanguageOption.label := "php (PHP)" |};
  {| LanguageOption.id := "plaintext"; LanguageOption.label := "plaintext (Plain Text)" |};
  {| LanguageOption.id := "postcss"; LanguageOption.label := "postcss (PostCSS)" |};
  {| LanguageOption.id := "powershell"; LanguageOption.label := "powershell (PowerShell)" |};
  {| LanguageOption.id := "properties"; LanguageOption.label := "properties (Properties)" |};
  {| LanguageOption.id := "python"; LanguageOption.label := "python (Python)" |};
  {| LanguageOption.id := "r"; LanguageOption.label := "r (R)" |};
  {| LanguageOption.id := "raku"; LanguageOption.label := "raku (Raku)" |};
  {| LanguageOption.id := "razor"; LanguageOption.label := "razor (Razor)" |};
  {| LanguageOption.id := "restructuredtext"; LanguageOption.label := "restructuredtext (ReStructured Text)" |};
  {| LanguageOption.id := "ruby"; LanguageOption.label := "ruby (Ruby)" |};
  {| LanguageOption.id := "rust"; LanguageOption.label := "rust (Rust)" |};
  {| LanguageOption.id := "scss"; LanguageOption.label := "scss (SCSS)" |};
  {| LanguageOption.id := "shaderlab"; LanguageOption.label := "shaderlab (ShaderLab)" |};
  {| LanguageOption.id := "shellscript"; LanguageOption.label := "shellscript (Shell Script)" |};
  {| LanguageOption.id := "snippets"; LanguageOption.label := "snippets (Code Snippets)" |};
  {| LanguageOption.id := "sql"; LanguageOption.label := "sql (MS SQL)" |};
  {| LanguageOption.id := "swift"; LanguageOption.label := "swift (Swift)" |};
  {| LanguageOption.id := "tex"; LanguageOption.label := "tex (TeX)" |};
  {| LanguageOption.id := "typescript"; LanguageOption.label := "typescript (TypeScript)" |};
  {| LanguageOption.id := "typescriptreact"; LanguageOption.label := "typescriptreact (TypeScript JSX)" |};
  {| LanguageOption.id := "vb"; LanguageOption.label := "vb (Visual Basic)" |};
  {| LanguageOption.id := "vue"; LanguageOption.label := "vue (Vue)" |};
  {| LanguageOption.id := "wat"; LanguageOption.label := "wat (WebAssembly Text Format)" |};
  {| LanguageOption.id := "xml"; LanguageOption.label := "xml (XML)" |};
  {| LanguageOption.id := "xsl"; LanguageOption.label := "xsl (XSL)" |};
  {| LanguageOption.id := "yaml"; LanguageOption.label := "yaml (YAML)" |}
].

(** A label made of the identifier followed by a name in parentheses. *)
Definition labelled (o : LanguageOption.t) : bool :=
  String.prefix (LanguageOption.id o +:+ " (") (LanguageOption.label o)
  && bool_decide (last (String.list_ascii_of_string (LanguageOption.label o))
                  = Some ")"%char).

(** ** Text escaper *)

(** The four [replace] calls of the source, innermost first: backslash,
    double quote, tab, carriage return. *)
Definition escapeLine (line : string) : string :=
  JSString.replaceAll CR ""
    (JSString.replaceAll TAB (String BACKSLASH "t")
       (JSString.replaceAll DQUOTE (String BACKSLASH (chr DQUOTE))
          (JSString.replaceAll BACKSLASH (String BACKSLASH (chr BACKSLASH)) line))).

Definition escapeSnippetText (text : string) : list string :=
  map escapeLine (JSString.split LF text).

(** *** What the escaper is meant to achieve, stated independently *)

(** The image of one character: the four special characters are rewritten,
    every other character stands for itself. *)
Definition escapeChar (c : ascii) : string :=
  if Ascii.eqb c BACKSLASH then String BACKSLASH (chr BACKSLASH)
  else if Ascii.eqb c DQUOTE then String BACKSLASH (chr DQUOTE)
  else if Ascii.eqb c TAB then String BACKSLASH "t"
  else if Ascii.eqb c CR then ""
  else chr c.

Fixpoint escapeChars (s : string) : string :=
  match s with
  | "" => ""
  | String c s' => escapeChar c +:+ escapeChars s'
  end.

(** A string has no raw special character when every backslash opens one of
    the escapes (backslash, double quote or the letter t after a backslash),
    and no double quote, tab or carriage
    return occurs outside such an escape. *)
Fixpoint noRawSpecial (s : string) : bool :=
  match s with
  | "" => true
  | String c s' =>
      if Ascii.eqb c BACKSLASH then
        match s' with
        | String d s'' =>
            (Ascii.eqb d BACKSLASH || Ascii.eqb d DQUOTE || Ascii.eqb d "t"%char)
            && noRawSpecial s''
        | "" => false
        end
      else if Ascii.eqb c DQUOTE || Ascii.eqb c TAB || Ascii.eqb c CR then false
      else noRawSpecial s'
  end.

(** Reading the escapes back. *)
Fixpoint unescape (s : string) : string :=
  match s with
  | "" => ""
  | String c s' =>
      if Ascii.eqb c BACKSLASH then
        match s' with
        | String d s'' =>
            String (if Ascii.eqb d "t"%char then TAB else d) (unescape s'')
        | "" => String c ""
        end
      else String c (unescape s')
  end.


(** ** JSON values *)

(** A value as [jsonc.parse] returns it and [JSON.stringify] prints it. A
    number is kept by its JavaScript rendering: the extension never
    computes with one. An object is the list of its own properties in the
    order JavaScript enumerates them. *)
#[warnings="-register-all"] Inductive json : Type :=
| JNull
| JBool (b : bool)
| JNum (repr : string)
| JStr (s : string)
| JArr (items : list json)
| JObj (props : list (string * json)).

Module JSObject.

(** The value of a canonical array index key (an integer below 2^32 - 1
    written without sign or leading zero). *)
Fixpoint digitsValue (acc : N) (s : string) : option N :=
  match s with
  | "" => Some acc
  | String c s' =>
      match Ascii.is_nat c with
      | Some d => digitsValue (acc * 10 + N.of_nat d) s'
      | None => None
      end
  end.

Definition arrayIndex (k : string) : option N :=
  match k with
  | "" => None
  | _ =>
      match digitsValue 0 k with
      | Some n =>
          if String.eqb (pretty n) k && (n <? 4294967295)%N then Some n else None
      | None => None
      end
  end.

Fixpoint get (k : string) (o : list (string * json)) : option json :=
  match o with
  | [] => None
  | (k', v) :: o' => if String.eqb k' k then Some v else get k o'
  end.

Definition keys (o : list (string * json)) : list string := map fst o.

Definition has (k : string) (o : list (string * json)) : bool :=
  existsb (String.eqb k) (keys o).

(** Overwriting an existing property keeps its place. *)
Fixpoint replaceValue (k : string) (v : json) (o : list (string * json))
  : list (string * json) :=
  match o with
  | [] => []
  | (k', v') :: o' =>
      if String.eqb k' k then (k', v) :: o' else (k', v') :: replaceValue k v o'
  end.

(** A new array index key goes among the index keys, in ascending order;
    index keys come before all other keys. *)
Fixpoint insertIndex (i : N) (k : string) (v : json) (o : list (string * json))
  : list (string * json) :=
  match o with
  | [] => [(k, v)]
  | (k', v') :: o' =>
      match arrayIndex k' with
      | Some j => if (j <? i)%N then (k', v') :: insertIndex i k v o'
                  else (k, v) :: o
      | None => (k, v) :: o
      end
  end.

(** [CreateDataProperty]: what an object literal does for each of its
    properties, computed keys included. *)
Definition createDataProperty (k : string) (v : json) (o : list (string * json))
  : list (string * json) :=
  if has k o then replaceValue k v o
  else match arrayIndex k with
       | Some i => insertIndex i k v o
       | None => o ++ [(k, v)]
       end.

(** Own enumerable properties of a value, as the spread syntax reads
    them: those of an object, the elements of an array by index, the
    characters of a string by index, nothing for the other values. *)
Definition ownProperties (v : json) : list (string * json) :=
  match v with
  | JObj props => props
  | JArr items => imap (λ i x, (pretty i, x)) items
  | JStr s =>
      imap (λ i c, (pretty i, JStr (chr c))) (String.list_ascii_of_string s)
  | _ => []
  end.

(** [{...src}] onto the properties already in [target]. *)
Definition spread (src : json) (target : list (string * json))
  : list (string * json) :=
  fold_left (λ acc kv, createDataProperty kv.1 kv.2 acc) (ownProperties src) target.

(** Truthiness, for [snippets || {}]. *)
Definition truthy (v : json) : bool :=
  match v with
  | JNull => false
  | JBool b => b
  | JNum r => negb (String.eqb r "0" || String.eqb r "NaN")
  | JStr s => JSString.truthy s
  | JArr _ | JObj _ => true
  end.

(** Index keys in ascending order first, then the other keys, and no key
    twice: every JavaScript object enumerates its own keys this way. *)
Definition precedes (a b : string) : Prop :=
  match arrayIndex a, arrayIndex b with
  | Some i, Some j => (i < j)%N
  | Some _, None => True
  | None, Some _ => False
  | None, None => True
  end.

#[global] Instance precedes_dec : RelDecision precedes.
Proof.
  intros a b. unfold precedes.
  destruct (arrayIndex a), (arrayIndex b); apply _.
Defined.

Definition wellFormed (o : list (string * json)) : Prop :=
  NoDup (keys o) ∧ StronglySorted precedes (keys o).

#[global] Instance wellFormed_dec o : Decision (wellFormed o).
Proof. unfold wellFormed. apply _. Defined.

End JSObject.

(** ** [JSON.stringify(value, null, 2)] *)

Module JSON.

Definition hexDigit (n : nat) : ascii :=
  match n with
  | 0 => "0" | 1 => "1" | 2 => "2" | 3 => "3" | 4 => "4" | 5 => "5"
  | 6 => "6" | 7 => "7" | 8 => "8" | 9 => "9" | 10 => "a" | 11 => "b"
  | 12 => "c" | 13 => "d" | 14 => "e" | _ => "f"
  end%char.

(** One code unit inside a JSON string literal. *)
Definition quoteChar (c : ascii) : string :=
  let n := nat_of_ascii c in
  if Ascii.eqb c DQUOTE then String BACKSLASH (chr DQUOTE)
  else if Ascii.eqb c BACKSLASH then String BACKSLASH (chr BACKSLASH)
  else if n =? 8 then String BACKSLASH "b"
  else if n =? 12 then String BACKSLASH "f"
  else if n =? 10 then String BACKSLASH "n"
  else if n =? 13 then String BACKSLASH "r"
  else if n =? 9 then String BACKSLASH "t"
  else if n <? 32 then
    String BACKSLASH ("u00" +:+ String (hexDigit (n / 16)) (chr (hexDigit (n mod 16))))
  else chr c.

Fixpoint quoteChars (s : string) : string :=
  match s with
  | "" => ""
  | String c s' => quoteChar c +:+ quoteChars s'
  end.

Definition quote (s : string) : string :=
  chr DQUOTE +:+ quoteChars s +:+ chr DQUOTE.

Definition gap : string := "  ".

(** [SerializeJSONProperty] with the current indentation. *)
Fixpoint serialize (indent : string) (v : json) : string :=
  match v with
  | JNull => "null"
  | JBool true => "true"
  | JBool false => "false"
  | JNum r => r
  | JStr s => quote s
  | JArr items =>
      let inner := indent +:+ gap in
      match items with
      | [] => "[]"
      | _ =>
          "[" +:+ nl +:+ inner
          +:+ JSString.join ("," +:+ nl +:+ inner) (map (serialize inner) items)
          +:+ nl +:+ indent +:+ "]"
      end
  | JObj props =>
      let inner := indent +:+ gap in
      match props with
      | [] => "{}"
      | _ =>
          "{" +:+ nl +:+ inner
          +:+ JSString.join ("," +:+ nl +:+ inner)
                (map (λ kv, quote kv.1 +:+ ": " +:+ serialize inner kv.2) props)
          +:+ nl +:+ indent +:+ "}"
      end
  end.

Definition stringify (v : json) : string := serialize "" v.

End JSON.

(** ** The collaborators of the extension *)

Module jsonc.

(** [jsonc.ParseError]: a numeric error code, the offset of the offending
    token and its length. *)
Record ParseError : Type := { error : nat; offset : nat; length : nat }.

Record ParseOptions : Type := { allowTrailingComma : bool }.

(** A call of [jsonc.parse] either returns a value, having pushed the
    errors it found, or throws something whose description is [e]. *)
Inductive outcome : Type :=
| Returned (result : json) (errors : list ParseError)
| Threw (e : string).

End jsonc.

(** What the extension imports from [jsonc-parser] and from Node's [path]
    module. *)
Class Platform : Type := {
  jsonc_parse : string → jsonc.ParseOptions → jsonc.outcome;
  path_join : list string → string;
  path_dirname : string → string
}.

(** [vscode.env.appName] and the two environment variables read. *)
Record Host : Type := {
  appName : string;
  APPDATA : option string;
  HOME : option string
}.

(** ** Lenient parser and its diagnostics *)

Record ParseResult : Type := {
  snippets : option json;
  error : option string
}.

(** The template literal prints an array hole as the word undefined. *)
Definition orUndefined (x : option string) : string := default "undefined" x.

Definition formatParseError (content : string) (e : jsonc.ParseError) : string :=
  let lines := JSString.split LF content in
  let lineIndex :=
    length (JSString.split LF (JSString.slice0 (jsonc.offset e) content)) - 1 in
  let errorLine := lines !! lineIndex in
  let lastNewLine := JSString.lastIndexOf LF content (jsonc.offset e) in
  let column :=
    if (lastNewLine =? -1)%Z then Z.of_nat (jsonc.offset e)
    else (Z.of_nat (jsonc.offset e) - lastNewLine - 1)%Z in
  "Line " +:+ pretty (lineIndex + 1) +:+ ", Column " +:+ pretty (column + 1)%Z
  +:+ ": " +:+ pretty (jsonc.error e) +:+ nl +:+ orUndefined errorLine.

Definition formatParseErrors (content : string) (parseErrors : list jsonc.ParseError)
  : string :=
  let errorDetails := JSString.join nl (map (formatParseError content) parseErrors) in
  "Parsing errors detected:" +:+ nl +:+ errorDetails.

Definition parseSnippetsFile `{Platform} (content : string) : ParseResult :=
  match jsonc_parse content {| jsonc.allowTrailingComma := true |} with
  | jsonc.Returned result parseErrors =>
      if 0 <? length parseErrors
      then {| snippets := None; error := Some (formatParseErrors content parseErrors) |}
      else {| snippets := Some result; error := None |}
  | jsonc.Threw e =>
      {| snippets := None; error := Some ("Fatal parsing error: " +:+ e) |}
  end.

(** ** The world the extension acts on *)

(** Files with their content and the directories that exist. *)
Record FS : Type := {
  files : gmap string string;
  dirs : gset string
}.

(** What the extension does to the outside, in the order it does it. *)
Inductive Event : Type :=
| ShowInputBox (prompt placeHolder : string) (value : option string)
| ShowInformationMessage (message : string)
| ShowErrorMessage (message : string)
| ConsoleError (label detail : string)
| ExistsSync (path : string)
| MkdirSync (path : string)
| ReadFileSync (path : string)
| WriteFileSync (path data : string).

(** [answers] holds what the user will reply to the coming input boxes:
    [None] for a dismissed box; a box with no reply left is dismissed. *)
Record World : Type := {
  fs : FS;
  answers : list (option string);
  trace : list Event
}.

Inductive Result (A : Type) : Type :=
| Ok (a : A)
| Throw (message : string).
Arguments Ok {A} a.
Arguments Throw {A} message.

(** Computations on the world that return or throw an [Error] with a
    message. *)
Definition M (A : Type) : Type := World → Result A * World.

#[global] Instance M_ret : MRet M := λ A a w, (Ok a, w).

#[global] Instance M_bind : MBind M := λ A B f m w,
  match m w with
  | (Ok a, w') => f a w'
  | (Throw e, w') => (Throw e, w')
  end.

Definition throw {A : Type} (message : string) : M A := λ w, (Throw message, w).

Definition tryCatch {A : Type} (body : M A) (handler : string → M A) : M A := λ w,
  match body w with
  | (Ok a, w') => (Ok a, w')
  | (Throw e, w') => handler e w'
  end.

Definition emit (e : Event) : M unit := λ w,
  (Ok (), {| fs := fs w; answers := answers w; trace := trace w ++ [e] |}).

Definition getFS : M FS := λ w, (Ok (fs w), w).

Definition putFS (f : FS) : M unit := λ w,
  (Ok (), {| fs := f; answers := answers w; trace := trace w |}).

(** [String(error)] for an [Error] with a non-empty message. *)
Definition errorToString (message : string) : string := "Error: " +:+ message.

(** *** [vscode.window] *)

Definition showInputBox (prompt placeHolder : string) (value : option string)
  : M (option string) := λ w,
  (Ok (mjoin (head (answers w))),
   {| fs := fs w; answers := tail (answers w);
      trace := trace w ++ [ShowInputBox prompt placeHolder value] |}).

Definition showInformationMessage (message : string) : M unit :=
  emit (ShowInformationMessage message).

Definition showErrorMessage (message : string) : M unit :=
  emit (ShowErrorMessage message).

Definition consoleError (label detail : string) : M unit :=
  emit (ConsoleError label detail).

(** *** Node's [fs] *)

Section FileSystem.
Context `{Platform}.

Definition existsSync (path : string) : M bool :=
  emit (ExistsSync path);;
  f ← getFS;
  mret (bool_decide (is_Some (files f !! path)) || bool_decide (path ∈ dirs f)).

(** The chain of parent directories of a path. *)
Fixpoint parentsUpTo (fuel : nat) (path : string) : list string :=
  match fuel with
  | 0 => []
  | S fuel' =>
      let parent := path_dirname path in
      if String.eqb parent path then [] else parent :: parentsUpTo fuel' parent
  end.

Definition parents (path : string) : list string :=
  parentsUpTo (String.length path) path.

(** [fs.mkdirSync(path, { recursive: true })]. *)
Definition mkdirSync (path : string) : M unit :=
  emit (MkdirSync path);;
  f ← getFS;
  if bool_decide (Exists (λ p, is_Some (files f !! p)) (path :: parents path))
  then throw ("ENOTDIR: not a directory, mkdir '" +:+ path +:+ "'")
  else putFS {| files := files f;
                dirs := dirs f ∪ list_to_set (path :: parents path) |}.

(** [fs.readFileSync(path, 'utf8')]. *)
Definition readFileSync (path : string) : M string :=
  emit (ReadFileSync path);;
  f ← getFS;
  match files f !! path with
  | Some content => mret content
  | None =>
      if bool_decide (path ∈ dirs f)
      then throw "EISDIR: illegal operation on a directory, read"
      else throw ("ENOENT: no such file or directory, open '" +:+ path +:+ "'")
  end.

(** [fs.writeFileSync(path, data, 'utf8')].  The failures modelled are
    those of opening the file: the path is a directory, a regular file
    sits where its directory or a parent of it should be, or its
    directory does not exist.  They happen before the file is touched.  A
    fault of the device once the file is open (no space left, an
    input-output error) can leave the file cut short: such faults have no
    place in this model, and what is stated below about files that keep
    their content is stated of runs that do not reach this call. *)
Definition writeFileSync (path data : string) : M unit :=
  emit (WriteFileSync path data);;
  f ← getFS;
  if bool_decide (path ∈ dirs f)
  then throw ("EISDIR: illegal operation on a directory, open '" +:+ path +:+ "'")
  else if bool_decide (path_dirname path ∈ dirs f)
  then putFS {| files := <[path := data]> (files f); dirs := dirs f |}
  else if bool_decide (Exists (λ p, is_Some (files f !! p))
                         (path_dirname path :: parents (path_dirname path)))
  then throw ("ENOTDIR: not a directory, open '" +:+ path +:+ "'")
  else throw ("ENOENT: no such file or directory, open '" +:+ path +:+ "'").

End FileSystem.

(** ** Interaction flow *)

Record TextDocument : Type := { languageId : string }.

(** The active editor: its document and the text of its selection. *)
Record TextEditor : Type := {
  document : TextDocument;
  selectedText : string
}.

Record SnippetInfo : Type := {
  name : string;
  prefixes : list string;
  description : string;
  language : string
}.

(** Truthiness of what an input box returns. *)
Definition answered (x : option string) : bool :=
  match x with
  | Some s => JSString.truthy s
  | None => false
  end.

Definition determineLanguage (document : TextDocument) : M (option string) :=
  let languageId := languageId document in
  if JSString.truthy languageId && negb (String.eqb languageId "plaintext")
  then mret (Some languageId)
  else
    language ← showInputBox "Enter the language for your snippet"
                 "e.g., javascript, python, lua"
                 (Some (if negb (String.eqb languageId "plaintext") then languageId else ""));
    mret (if answered language then JSString.toLowerCase <$> language else None).

(** [prefixInput.split(',').map(p => p.trim()).filter(p => p !== '')]. *)
Definition splitPrefixes (prefixInput : string) : list string :=
  filter (λ p, p ≠ "") (map JSString.trim (JSString.split "," prefixInput)).

Definition collectSnippetInfo (document : TextDocument) : M (option SnippetInfo) :=
  snippetName ← showInputBox "Enter a name for your snippet" "e.g., My Function" None;
  match snippetName with
  | Some snippetName =>
      if negb (JSString.truthy snippetName) then mret None else
      prefixInput ← showInputBox "Enter prefix(es) for your snippet (comma-separated)"
                      "e.g., func, superFunc" None;
      match prefixInput with
      | Some prefixInput =>
          if negb (JSString.truthy prefixInput) then mret None else
          description ← showInputBox "Enter a description for your snippet (optional)"
                          "e.g., A super function that does everything" None;
          language ← determineLanguage document;
          match language with
          | Some language =>
              mret (Some {| name := snippetName;
                            prefixes := splitPrefixes prefixInput;
                            description :=
                              if answered description then default "" description
                              else snippetName;
                            language := language |})
          | None => mret None
          end
      | None => mret None
      end
  | None => mret None
  end.

(** ** Path resolution and persistence *)

Record EditorInfo : Type := {
  isVSCode : bool;
  isCursor : bool;
  editorAppName : string
}.

Definition getEditorInfo (host : Host) : EditorInfo :=
  {| isVSCode := String.eqb (appName host) "Visual Studio Code";
     isCursor := JSString.includes "Cursor" (appName host);
     editorAppName := appName host |}.

(** [isVSCode ? 'Code' : isCursor ? 'Cursor' : appName]. *)
Definition configFolder (info : EditorInfo) : string :=
  if isVSCode info then "Code"
  else if isCursor info then "Cursor"
  else editorAppName info.

(** [process.env.APPDATA || process.env.HOME || '']. *)
Definition baseDir (host : Host) : string :=
  if answered (APPDATA host) then default "" (APPDATA host)
  else if answered (HOME host) then default "" (HOME host)
  else "".

Section Persistence.
Context `{Platform}.

Definition snippetsPath (host : Host) (language : string) : string :=
  path_join [baseDir host; configFolder (getEditorInfo host);
             "User"; "snippets"; language +:+ ".json"].

(** The entry built from the collected information and the selection. *)
Definition newSnippet (snippetInfo : SnippetInfo) (selectedText : string) : json :=
  JObj [("prefix", JArr (map JStr (prefixes snippetInfo)));
        ("body", JArr (map JStr (escapeSnippetText selectedText)));
        ("description", JStr (description snippetInfo))].

(** [{ ...(snippets || {}), [name]: newSnippet }]. *)
Definition mergeSnippet (snippets : option json) (name : string) (entry : json)
  : list (string * json) :=
  let existing :=
    match snippets with
    | Some v => if JSObject.truthy v then v else JObj []
    | None => JObj []
    end in
  JSObject.createDataProperty name entry (JSObject.spread existing []).

Definition saveSnippet (host : Host) (snippetInfo : SnippetInfo) (selectedText : string)
  : M unit :=
  let snippetsPath := snippetsPath host (language snippetInfo) in
  let snippetsDir := path_dirname snippetsPath in
  dirExists ← existsSync snippetsDir;
  (if negb dirExists then mkdirSync snippetsDir else mret () : M unit);;
  fileExists ← existsSync snippetsPath;
  existingContent ← (if (fileExists : bool) then readFileSync snippetsPath
                     else mret "{}" : M string);
  let parsed := parseSnippetsFile existingContent in
  if answered (error parsed)
  then throw ("Error parsing existing snippets: " +:+ default "" (error parsed))
  else
    let updatedSnippets :=
      mergeSnippet (snippets parsed) (name snippetInfo)
        (newSnippet snippetInfo selectedText) in
    writeFileSync snippetsPath (JSON.stringify (JObj updatedSnippets)).

(** The handler registered for the command [extension.generateSnippet]. *)
Definition createSnippet (host : Host) (activeTextEditor : option TextEditor) : M unit :=
  match activeTextEditor with
  | None => showErrorMessage "No active editor"
  | Some editor =>
      if negb (JSString.truthy (selectedText editor))
      then showErrorMessage "No text selected"
      else
        snippetInfo ← collectSnippetInfo (document editor);
        match snippetInfo with
        | None => mret ()
        | Some snippetInfo =>
            tryCatch
              (saveSnippet host snippetInfo (selectedText editor);;
               showInformationMessage
                 ("Snippet " +:+ chr DQUOTE +:+ name snippetInfo +:+ chr DQUOTE
                  +:+ " added successfully!"))
              (λ e,
                 showErrorMessage ("Error creating snippet: " +:+ errorToString e);;
                 consoleError "Error details:" (errorToString e))
        end
  end.

End Persistence.

(** ** A reference platform

    A POSIX rendering of Node's [path.join] and [path.dirname], and a small
    parser for JSON with comments that stands in for [jsonc.parse] when the
    definitions above are run on concrete inputs.  The parser is not the
    whole of [jsonc.parse]: it stops at the first error where [jsonc.parse]
    goes on and may report several; it keeps a number by the text that
    writes it where JavaScript holds a double; and, a string being made
    here of code units below 256, it has no value for the escape of a
    higher code unit and reports such an escape as invalid. *)

Module posix.

Definition SLASH : ascii := "/"%char.

Definition isAbsolute (path : string) : bool :=
  match path with
  | String c _ => Ascii.eqb c SLASH
  | "" => false
  end.

Definition trailingSeparator (path : string) : bool :=
  match last (String.list_ascii_of_string path) with
  | Some c => Ascii.eqb c SLASH
  | None => false
  end.

(** One step of [normalizeString]: [acc] holds the segments kept so far. *)
Definition normalizeSegment (allowAboveRoot : bool) (acc : list string) (seg : string)
  : list string :=
  if String.eqb seg "" || String.eqb seg "." then acc
  else if String.eqb seg ".." then
    match last acc with
    | Some l =>
        if String.eqb l ".." then (if allowAboveRoot then acc ++ [".."] else acc)
        else removelast acc
    | None => if allowAboveRoot then [".."] else []
    end
  else acc ++ [seg].

Definition normalize (path : string) : string :=
  match path with
  | "" => "."
  | _ =>
      let body :=
        JSString.join "/"
          (fold_left (normalizeSegment (negb (isAbsolute path)))
             (JSString.split SLASH path) []) in
      match body with
      | "" =>
          if isAbsolute path then "/"
          else if trailingSeparator path then "./" else "."
      | _ =>
          let body := if trailingSeparator path then body +:+ "/" else body in
          if isAbsolute path then "/" +:+ body else body
      end
  end.

Definition join (segments : list string) : string :=
  match filter (λ s, s ≠ "") segments with
  | [] => "."
  | present => normalize (JSString.join "/" present)
  end.

Fixpoint dropWhile (p : ascii → bool) (l : list ascii) : list ascii :=
  match l with
  | c :: l' => if p c then dropWhile p l' else l
  | [] => []
  end.

Definition dirname (path : string) : string :=
  match path with
  | "" => "."
  | String first rest =>
      let backwards := rev (String.list_ascii_of_string rest) in
      let noTrailing := dropWhile (Ascii.eqb SLASH) backwards in
      let upToSlash := dropWhile (λ c, negb (Ascii.eqb SLASH c)) noTrailing in
      match upToSlash with
      | [] => if Ascii.eqb first SLASH then "/" else "."
      | _ :: kept =>
          match kept with
          | [] => if Ascii.eqb first SLASH then "//" else chr first
          | _ => String first (String.string_of_list_ascii (rev kept))
          end
      end
  end.

End posix.

Module jsoncDemo.

Inductive token : Type :=
| TOpenBrace | TCloseBrace | TOpenBracket | TCloseBracket | TComma | TColon
| TString (s : string)
| TWord (w : string).

(** A token with its offset and length in the text. *)
Record located : Type := { tok : token; at_ : nat; len : nat }.

Inductive mode : Type :=
| Normal
| Slash (start : nat)
| LineComment
| BlockComment (start : nat) (star : bool)
| InString (start : nat) (acc : string) (escaped : bool)
| InUnicode (start : nat) (acc : string) (digits : nat) (value : nat)
| InWord (start : nat) (acc : string).

Inductive lexed : Type :=
| Tokens (ts : list located) (eof : nat)
| LexError (code : nat) (offset : nat) (length : nat).

Definition isBlank (c : ascii) : bool :=
  Ascii.eqb c " " || Ascii.eqb c TAB || Ascii.eqb c LF || Ascii.eqb c CR.

Definition punctuation (c : ascii) : option token :=
  if Ascii.eqb c "{" then Some TOpenBrace
  else if Ascii.eqb c "}" then Some TCloseBrace
  else if Ascii.eqb c "[" then Some TOpenBracket
  else if Ascii.eqb c "]" then Some TCloseBracket
  else if Ascii.eqb c "," then Some TComma
  else if Ascii.eqb c ":" then Some TColon
  else None.

Definition hexValue (c : ascii) : option nat :=
  let n := nat_of_ascii c in
  if (48 <=? n) && (n <=? 57) then Some (n - 48)
  else if (97 <=? n) && (n <=? 102) then Some (n - 87)
  else if (65 <=? n) && (n <=? 70) then Some (n - 55)
  else None.

Definition unescapeChar (c : ascii) : option ascii :=
  if Ascii.eqb c DQUOTE || Ascii.eqb c BACKSLASH || Ascii.eqb c "/" then Some c
  else if Ascii.eqb c "b" then Some "008"%char
  else if Ascii.eqb c "f" then Some "012"%char
  else if Ascii.eqb c "n" then Some LF
  else if Ascii.eqb c "r" then Some CR
  else if Ascii.eqb c "t" then Some TAB
  else None.

Definition emitToken (t : located) (r : lexed) : lexed :=
  match r with
  | Tokens ts eof => Tokens (t :: ts) eof
  | LexError c o l => LexError c o l
  end.

Fixpoint lex (m : mode) (pos : nat) (s : string) : lexed :=
  match s with
  | "" =>
      match m with
      | Normal | LineComment => Tokens [] pos
      | Slash start => LexError 1 start 1
      | BlockComment start _ => LexError 11 start (pos - start)
      | InString start _ _ | InUnicode start _ _ _ => LexError 12 start (pos - start)
      | InWord start acc =>
          Tokens [{| tok := TWord acc; at_ := start; len := pos - start |}] pos
      end
  | String c s' =>
      let normal := λ _ : unit,
        if isBlank c then lex Normal (S pos) s'
        else if Ascii.eqb c "/" then lex (Slash pos) (S pos) s'
        else if Ascii.eqb c DQUOTE then lex (InString pos "" false) (S pos) s'
        else match punctuation c with
             | Some t => emitToken {| tok := t; at_ := pos; len := 1 |}
                           (lex Normal (S pos) s')
             | None => lex (InWord pos (chr c)) (S pos) s'
             end in
      match m with
      | Normal => normal ()
      | Slash start =>
          if Ascii.eqb c "/" then lex LineComment (S pos) s'
          else if Ascii.eqb c "*" then lex (BlockComment start false) (S pos) s'
          else LexError 1 start 1
      | LineComment =>
          if Ascii.eqb c LF || Ascii.eqb c CR then lex Normal (S pos) s'
          else lex LineComment (S pos) s'
      | BlockComment start star =>
          if star && Ascii.eqb c "/" then lex Normal (S pos) s'
          else lex (BlockComment start (Ascii.eqb c "*")) (S pos) s'
      | InString start acc true =>
          if Ascii.eqb c "u" then lex (InUnicode start acc 0 0) (S pos) s'
          else match unescapeChar c with
               | Some d => lex (InString start (acc +:+ chr d) false) (S pos) s'
               | None => LexError 15 start (S pos - start)
               end
      | InString start acc false =>
          if Ascii.eqb c DQUOTE then
            emitToken {| tok := TString acc; at_ := start; len := S pos - start |}
              (lex Normal (S pos) s')
          else if Ascii.eqb c BACKSLASH then lex (InString start acc true) (S pos) s'
          else if Ascii.eqb c LF || Ascii.eqb c CR then LexError 12 start (pos - start)
          else if nat_of_ascii c <? 32 then LexError 16 start (S pos - start)
          else lex (InString start (acc +:+ chr c) false) (S pos) s'
      | InUnicode start acc digits value =>
          match hexValue c with
          | Some h =>
              let value := value * 16 + h in
              if digits =? 3 then
                if value <? 256
                then lex (InString start (acc +:+ chr (ascii_of_nat value)) false)
                       (S pos) s'
                else LexError 14 start (S pos - start)
              else lex (InUnicode start acc (S digits) value) (S pos) s'
          | None => LexError 14 start (S pos - start)
          end
      | InWord start acc =>
          if isBlank c || Ascii.eqb c "/" || Ascii.eqb c DQUOTE
             || bool_decide (is_Some (punctuation c))
          then emitToken {| tok := TWord acc; at_ := start; len := pos - start |}
                 (normal ())
          else lex (InWord start (acc +:+ chr c)) (S pos) s'
      end
  end.

(** The numbers of JSON: an optional minus sign, an integer part without
    leading zero, an optional fraction, an optional exponent. *)
Inductive numberState : Type :=
| NStart | NMinus | NZero | NInt | NDot | NFrac | NExpMark | NExpSign | NExp.

Definition isDigit (c : ascii) : bool := bool_decide (is_Some (Ascii.is_nat c)).

Definition isExpMark (c : ascii) : bool := Ascii.eqb c "e" || Ascii.eqb c "E".

Definition numberStep (st : numberState) (c : ascii) : option numberState :=
  match st with
  | NStart =>
      if Ascii.eqb c "-" then Some NMinus
      else if Ascii.eqb c "0" then Some NZero
      else if isDigit c then Some NInt else None
  | NMinus =>
      if Ascii.eqb c "0" then Some NZero
      else if isDigit c then Some NInt else None
  | NZero =>
      if Ascii.eqb c "." then Some NDot
      else if isExpMark c then Some NExpMark else None
  | NInt =>
      if isDigit c then Some NInt
      else if Ascii.eqb c "." then Some NDot
      else if isExpMark c then Some NExpMark else None
  | NDot => if isDigit c then Some NFrac else None
  | NFrac =>
      if isDigit c then Some NFrac
      else if isExpMark c then Some NExpMark else None
  | NExpMark =>
      if Ascii.eqb c "+" || Ascii.eqb c "-" then Some NExpSign
      else if isDigit c then Some NExp else None
  | NExpSign | NExp => if isDigit c then Some NExp else None
  end.

Definition numberEnd (st : numberState) : bool :=
  match st with
  | NZero | NInt | NFrac | NExp => true
  | _ => false
  end.

Fixpoint isNumberFrom (st : numberState) (w : string) : bool :=
  match w with
  | "" => numberEnd st
  | String c w' =>
      match numberStep st c with
      | Some st' => isNumberFrom st' w'
      | None => false
      end
  end.

Definition isNumber (w : string) : bool := isNumberFrom NStart w.

(** The value of a literal word: [true], [false], [null] or a number, kept
    by the text that writes it (minus zero is zero). *)
Definition wordValue (w : string) : option json :=
  if String.eqb w "true" then Some (JBool true)
  else if String.eqb w "false" then Some (JBool false)
  else if String.eqb w "null" then Some JNull
  else if isNumber w then Some (JNum (if String.eqb w "-0" then "0" else w))
  else None.

Inductive parsed (A : Type) : Type :=
| Parsed (a : A) (rest : list located)
| ParseFailure (code : nat) (offset : nat) (length : nat).
Arguments Parsed {A} a rest.
Arguments ParseFailure {A} code offset length.

Definition failAt {A : Type} (code : nat) (eof : nat) (ts : list located) : parsed A :=
  match ts with
  | t :: _ => ParseFailure code (at_ t) (len t)
  | [] => ParseFailure code eof 0
  end.

Section Parser.
Variable trailingComma : bool.
Variable eof : nat.

Fixpoint parseValue (fuel : nat) (ts : list located) : parsed json :=
  match fuel with
  | 0 => failAt 4 eof ts
  | S fuel' =>
      match ts with
      | {| tok := TString s |} :: rest => Parsed (JStr s) rest
      | {| tok := TWord w; at_ := o; len := l |} :: rest =>
          match wordValue w with
          | Some v => Parsed v rest
          | None => ParseFailure (if isDigit (default "x"%char (String.get 0 w)) then 2 else 1) o l
          end
      | {| tok := TOpenBracket |} :: {| tok := TCloseBracket |} :: rest =>
          Parsed (JArr []) rest
      | {| tok := TOpenBracket |} :: rest =>
          match parseElements fuel' rest with
          | Parsed items rest' => Parsed (JArr items) rest'
          | ParseFailure c o l => ParseFailure c o l
          end
      | {| tok := TOpenBrace |} :: {| tok := TCloseBrace |} :: rest =>
          Parsed (JObj []) rest
      | {| tok := TOpenBrace |} :: rest =>
          match parseMembers fuel' [] rest with
          | Parsed props rest' => Parsed (JObj props) rest'
          | ParseFailure c o l => ParseFailure c o l
          end
      | _ => failAt 4 eof ts
      end
  end
with parseElements (fuel : nat) (ts : list located) : parsed (list json) :=
  match fuel with
  | 0 => failAt 4 eof ts
  | S fuel' =>
      match parseValue fuel' ts with
      | Parsed v rest =>
          match rest with
          | {| tok := TCloseBracket |} :: rest' => Parsed [v] rest'
          | {| tok := TComma |} :: {| tok := TCloseBracket |} :: rest' =>
              if trailingComma then Parsed [v] rest'
              else failAt 4 eof (tail rest)
          | {| tok := TComma |} :: rest' =>
              match parseElements fuel' rest' with
              | Parsed vs rest'' => Parsed (v :: vs) rest''
              | ParseFailure c o l => ParseFailure c o l
              end
          | _ => failAt 6 eof rest
          end
      | ParseFailure c o l => ParseFailure c o l
      end
  end
with parseMembers (fuel : nat) (acc : list (string * json)) (ts : list located)
  : parsed (list (string * json)) :=
  match fuel with
  | 0 => failAt 3 eof ts
  | S fuel' =>
      match ts with
      | {| tok := TString k |} :: {| tok := TColon |} :: rest =>
          match parseValue fuel' rest with
          | Parsed v rest' =>
              let acc := JSObject.createDataProperty k v acc in
              match rest' with
              | {| tok := TCloseBrace |} :: rest'' => Parsed acc rest''
              | {| tok := TComma |} :: {| tok := TCloseBrace |} :: rest'' =>
                  if trailingComma then Parsed acc rest''
                  else failAt 3 eof (tail rest')
              | {| tok := TComma |} :: rest'' => parseMembers fuel' acc rest''
              | _ => failAt 6 eof rest'
              end
          | ParseFailure c o l => ParseFailure c o l
          end
      | {| tok := TString _ |} :: rest => failAt 5 eof rest
      | _ => failAt 3 eof ts
      end
  end.

End Parser.

(** Modelled from the spec: the parse mechanism of the lenient parser,
    [jsonc.parse] of the package jsonc-parser, whose code is not among the
    sources.  It reads JSON, tolerates line comments, block comments and,
    when the option says so, one trailing comma before a closing brace or
    bracket; what it finds wrong is returned as errors, never thrown.  It
    is a stand-in within the limits stated at the head of this part: the
    first error only, numbers by their text, code units below 256. *)
Definition parse (content : string) (options : jsonc.ParseOptions) : jsonc.outcome :=
  match lex Normal 0 content with
  | LexError code offset length =>
      jsonc.Returned JNull
        [{| jsonc.error := code; jsonc.offset := offset; jsonc.length := length |}]
  | Tokens ts eof =>
      match parseValue (jsonc.allowTrailingComma options) eof (S (length ts)) ts with
      | Parsed v [] => jsonc.Returned v []
      | Parsed v (t :: _) =>
          jsonc.Returned v
            [{| jsonc.error := 9; jsonc.offset := at_ t; jsonc.length := len t |}]
      | ParseFailure code offset length =>
          jsonc.Returned JNull
            [{| jsonc.error := code; jsonc.offset := offset; jsonc.length := length |}]
      end
  end.

(** *** Where tokens and errors sit *)

(** An offset in the text, its end included, and not on a newline. *)
Definition okOffset (content : string) (o : nat) : Prop :=
  o ≤ String.length content ∧ String.get o content ≠ Some LF.

(** Results whose tokens and error offsets are such offsets. *)
Definition lexOk (content : string) (r : lexed) : Prop :=
  match r with
  | Tokens ts eof =>
      Forall (λ t, okOffset content (at_ t)) ts ∧ okOffset content eof
  | LexError _ o _ => okOffset content o
  end.
Arguments lexOk : simpl never.

Definition modeOk (content : string) (m : mode) : Prop :=
  match m with
  | Normal | LineComment => True
  | Slash start | BlockComment start _ | InString start _ _
  | InUnicode start _ _ _ | InWord start _ => okOffset content start
  end.

Definition parsedOk {A : Type} (content : string) (r : parsed A) : Prop :=
  match r with
  | Parsed _ rest => Forall (λ t, okOffset content (at_ t)) rest
  | ParseFailure _ o _ => okOffset content o
  end.

End jsoncDemo.

(** The reference platform. *)
Definition referencePlatform : Platform := {|
  jsonc_parse := jsoncDemo.parse;
  path_join := posix.join;
  path_dirname := posix.dirname
|}.

(** Double quotes are written as apostrophes in the sample texts below. *)
Definition dq (s : string) : string := JSString.replaceAll "'" (chr DQUOTE) s.

(** A platform whose parse mechanism faults, as a deep nesting makes
    a recursive parser do. *)
Definition faultyPlatform : Platform := {|
  jsonc_parse := λ _ _, jsonc.Threw "RangeError: Maximum call stack size exceeded";
  path_join := posix.join;
  path_dirname := posix.dirname
|}.

(** ** Notions used to state the properties *)

(** The line and column of an offset, both counted from the given start
    values, found by walking the text up to the offset. *)
Fixpoint position (s : string) (offset : nat) (line col : nat) : nat * nat :=
  match offset, s with
  | S o, String c s' =>
      if Ascii.eqb c LF then position s' o (S line) 1 else position s' o line (S col)
  | _, _ => (line, col)
  end.

(** [line] is the whole line of [content] that holds [offset]: it has no
    newline, it is bounded by newlines or the ends of the text, and the
    offset falls inside it or on the newline that ends it. *)
Definition isLineAt (content : string) (offset : nat) (line : string) : Prop :=
  ∃ before after,
    content = before +:+ line +:+ after
    ∧ JSString.count LF line = 0
    ∧ (before = "" ∨ ∃ b, before = b +:+ nl)
    ∧ (after = "" ∨ ∃ a, after = nl +:+ a)
    ∧ String.length before ≤ offset ≤ String.length before + String.length line.

(** An error whose offset lies in the text (its end included) and not on a
    newline character, as the offset of a token or of the end of the text
    does. *)
Definition atToken (content : string) (e : jsonc.ParseError) : Prop :=
  jsoncDemo.okOffset content (jsonc.offset e).

(** The block of the diagnostic for one error. *)
Definition errorBlock (line column code : nat) (text : string) : string :=
  "Line " +:+ pretty line +:+ ", Column " +:+ pretty column
  +:+ ": " +:+ pretty code +:+ nl +:+ text.

(** Events that read or change the file system. *)
Definition touchesFiles (e : Event) : bool :=
  match e with
  | ExistsSync _ | MkdirSync _ | ReadFileSync _ | WriteFileSync _ _ => true
  | _ => false
  end.

(** [s] occurs in [t]. *)
Definition occursIn (s t : string) : Prop := ∃ a b, t = a +:+ s +:+ b.

(** What the parser reports for an outcome of the parse mechanism that is
    a failure: errors were pushed, or something was thrown. *)
Definition failed (out : jsonc.outcome) : Prop :=
  match out with
  | jsonc.Returned _ errs => errs ≠ []
  | jsonc.Threw _ => True
  end.

Definition failureReport (content : string) (out : jsonc.outcome) : string :=
  match out with
  | jsonc.Returned _ errs => formatParseErrors content errs
  | jsonc.Threw e => "Fatal parsing error: " +:+ e
  end.

Section Targets.
Context `{Platform}.

(** Every file lies in a directory that exists. *)
Definition consistent (f : FS) : Prop :=
  map_Forall (λ path _, path_dirname path ∈ dirs f) (files f).

(** The file at [path] does not exist yet and can be created: nothing has
    that name, no file sits where its directory or one of the parents of
    its directory has to be, and the path is not one of its own parents. *)
Definition absentTarget (f : FS) (path : string) : Prop :=
  files f !! path = None
  ∧ (path ∉ dirs f)
  ∧ Forall (λ p, files f !! p = None) (path_dirname path :: parents (path_dirname path))
  ∧ (path ∉ path_dirname path :: parents (path_dirname path)).

End Targets.

(** The three input boxes of [collectSnippetInfo], as events. *)
Definition namePrompt : Event :=
  ShowInputBox "Enter a name for your snippet" "e.g., My Function" None.

Definition prefixPrompt : Event :=
  ShowInputBox "Enter prefix(es) for your snippet (comma-separated)"
    "e.g., func, superFunc" None.

Definition descriptionPrompt : Event :=
  ShowInputBox "Enter a description for your snippet (optional)"
    "e.g., A super function that does everything" None.

(** The input box of [determineLanguage], as an event. *)
Definition languagePrompt : Event :=
  ShowInputBox "Enter the language for your snippet" "e.g., javascript, python, lua"
    (Some "").

(** What a reply to an input box counts for: nothing when the box is
    dismissed or left empty. *)
Definition reply (x : option (option string)) : option string :=
  match x with
  | Some (Some s) => if JSString.truthy s then Some s else None
  | _ => None
  end.

(** A prefix input made of commas and white space only. *)
Fixpoint blankPrefixes (s : string) : bool :=
  match s with
  | "" => true
  | String c s' => (Ascii.eqb c "," || JSString.isWhiteSpace c) && blankPrefixes s'
  end.

(** The content [saveSnippet] parses: that of the target file, or an empty
    mapping when there is no such file. *)
Definition existingContent (f : FS) (path : string) : string :=
  default "{}" (files f !! path).

(** Calls of [writeFileSync]. *)
Definition isWrite (e : Event) : bool :=
  match e with
  | WriteFileSync _ _ => true
  | _ => false
  end.

(** Events that tell the user, or the console, how the command ended. *)
Definition isMessage (e : Event) : bool :=
  match e with
  | ShowInformationMessage _ | ShowErrorMessage _ | ConsoleError _ _ => true
  | _ => false
  end.

(** The two ways the command reports the end of a save. *)
Definition successReport (snippetName : string) : list Event :=
  [ShowInformationMessage
     ("Snippet " +:+ chr DQUOTE +:+ snippetName +:+ chr DQUOTE +:+ " added successfully!")].

Definition failureMessages (message : string) : list Event :=
  [ShowErrorMessage ("Error creating snippet: Error: " +:+ message);
   ConsoleError "Error details:" ("Error: " +:+ message)].

(** The world once the first two, or all three, boxes have been shown. *)
Definition afterPrefixPrompt (w : World) (rest : list (option string)) : World :=
  {| fs := fs w; answers := rest; trace := trace w ++ [namePrompt; prefixPrompt] |}.

Definition afterDescriptionPrompt (w : World) (rest : list (option string)) : World :=
  {| fs := fs w; answers := rest;
     trace := trace w ++ [namePrompt; prefixPrompt; descriptionPrompt] |}.

(** What [collectSnippetInfo] returns once language resolution has run. *)
Definition withLanguage (snippetName : string) (prefixes : list string)
    (description : string) (resolved : Result (option string) * World)
  : Result (option SnippetInfo) * World :=
  (match resolved.1 with
   | Ok (Some language) =>
       Ok (Some {| name := snippetName; prefixes := prefixes;
                   description := description; language := language |})
   | Ok None => Ok None
   | Throw e => Throw e
   end, resolved.2).

(** ** Sample inputs *)

(** A snippet file with a missing colon on its second line. *)
Definition brokenFile : string :=
  dq ("{" +:+ nl +:+ "  'a' 1" +:+ nl +:+ "}").

(** A snippet file in strict JSON. *)
Definition strictFile : string := dq "{'a': {'prefix': 'x', 'body': ['y'], 'description': 'z'}}".

Definition sampleEntry : json :=
  JObj [("prefix", JStr "x"); ("body", JArr [JStr "y"]); ("description", JStr "z")].

(** A user of Visual Studio Code on a POSIX system, a Python document with
    the selection of the end-to-end scenario, and an empty home directory. *)
Definition sampleHost : Host :=
  {| appName := "Visual Studio Code"; APPDATA := None; HOME := Some "/home/u" |}.

Definition sampleSelection : string :=
  "line1" +:+ nl +:+ String TAB "line2" +:+ String BACKSLASH "end".

Definition sampleEditor : TextEditor :=
  {| document := {| languageId := "python" |}; selectedText := sampleSelection |}.

Definition emptyHome : FS :=
  {| files := ∅; dirs := {["/"; "/home"; "/home/u"]} |}.

Definition sampleDir : string := "/home/u/Code/User/snippets".
Definition samplePath : string := "/home/u/Code/User/snippets/python.json".

(** A home directory whose Python snippet file is [brokenFile]. *)
Definition brokenHome : FS :=
  {| files := {[samplePath := brokenFile]};
     dirs := {["/"; "/home"; "/home/u"; "/home/u/Code"; "/home/u/Code/User"; sampleDir]} |}.

Definition userTyping (f : FS) (replies : list (option string)) : World :=
  {| fs := f; answers := replies; trace := [] |}.

(** The file of the end-to-end scenario. *)
Definition endToEndEntry : json :=
  JObj [("prefix", JArr [JStr "a"; JStr "b"]);
        ("body", JArr [JStr "line1"; JStr (String BACKSLASH "tline2" +:+ String BACKSLASH (String BACKSLASH "end"))]);
        ("description", JStr "Test")].

Definition endToEndFile : string :=
  dq (JSString.join nl
        ["{";
         "  'Test': {";
         "    'prefix': [";
         "      'a',";
         "      'b'";
         "    ],";
         "    'body': [";
         "      'line1',";
         "      '\\tline2\\\\end'";
         "    ],";
         "    'description': 'Test'";
         "  }";
         "}"]).

(** What the scenarios below collect and write. *)
Definition sampleInfo : SnippetInfo :=
  {| name := "Test"; prefixes := ["a"; "b"]; description := "Test"; language := "python" |}.

(** A home directory whose Python snippet file is [strictFile]: its entry
    [a] has a string for prefix. *)
Definition populatedHome : FS :=
  {| files := {[samplePath := strictFile]};
     dirs := {["/"; "/home"; "/home/u"; "/home/u/Code"; "/home/u/Code/User"; sampleDir]} |}.

Definition blankPrefixesFile : string :=
  dq (JSString.join nl
        ["{";
         "  'Test': {";
         "    'prefix': [],";
         "    'body': [";
         "      'line1',";
         "      '\\tline2\\\\end'";
         "    ],";
         "    'description': 'Test'";
         "  }";
         "}"]).

Definition carriedOverFile : string :=
  dq (JSString.join nl
        ["{";
         "  'a': {";
         "    'prefix': 'x',";
         "    'body': [";
         "      'y'";
         "    ],";
         "    'description': 'z'";
         "  },";
         "  'Test': {";
         "    'prefix': [";
         "      'foo'";
         "    ],";
         "    'body': [";
         "      'line1',";
         "      '\\tline2\\\\end'";
         "    ],";
         "    'description': 'Test'";
         "  }";
         "}"]).

Definition onePrefixInfo : SnippetInfo :=
  {| name := "Test"; prefixes := splitPrefixes "foo"; description := "Test";
     language := "python" |}.

(** A home directory where a file sits in the place of the configuration
    folder. *)
Definition blockedHome : FS :=
  {| files := {["/home/u/Code" := "x"]}; dirs := {["/"; "/home"; "/home/u"]} |}.


(** ** Basic facts on strings *)

Section StringFacts.

Lemma sapp_nil_l (s : string) : "" +:+ s = s.
Proof. reflexivity. Qed.

Lemma sapp_cons (a : ascii) (s t : string) :
  String a s +:+ t = String a (s +:+ t).
Proof. reflexivity. Qed.

Lemma sapp_nil_r (s : string) : s +:+ "" = s.
Proof. induction s as [|a s IH]; [done|]. by rewrite sapp_cons, IH. Qed.

Lemma sapp_assoc (s t u : string) : (s +:+ t) +:+ u = s +:+ (t +:+ u).
Proof. induction s as [|a s IH]; [done|]. by rewrite !sapp_cons, IH. Qed.

End StringFacts.

Ltac sapp := rewrite ?sapp_cons, ?sapp_nil_l, ?sapp_nil_r.

Section SplitFacts.

Lemma split_nonempty c s : JSString.split c s ≠ [].
Proof.
  destruct s as [|d s]; simpl; [done|].
  destruct (Ascii.eqb d c); [done|]. by destruct (JSString.split c s).
Qed.

Lemma split_length c s :
  length (JSString.split c s) = S (JSString.count c s).
Proof.
  induction s as [|d s IH]; simpl; [done|].
  destruct (Ascii.eqb d c); simpl; [by rewrite IH|].
  destruct (JSString.split c s) as [|h t] eqn:E; [by destruct (split_nonempty c s)|].
  simpl in *. lia.
Qed.

Lemma split_no_sep c s : Forall (λ l, JSString.count c l = 0) (JSString.split c s).
Proof.
  induction s as [|d s IH]; simpl; [by repeat constructor|].
  destruct (Ascii.eqb d c) eqn:Hd; [by constructor|].
  destruct (JSString.split c s) as [|h t]; [repeat constructor; simpl; by rewrite Hd|].
  inversion IH; subst. constructor; [|done]. simpl. by rewrite Hd.
Qed.

(** Joining the pieces with the separator gives the text back. *)
Lemma join_split c s : JSString.join (chr c) (JSString.split c s) = s.
Proof.
  induction s as [|d s IH]; simpl; [done|].
  destruct (Ascii.eqb_spec d c) as [->|Hne].
  - destruct (JSString.split c s) as [|h t] eqn:E; [by destruct (split_nonempty c s)|].
    change (JSString.join (chr c) ("" :: h :: t)) with ("" +:+ chr c +:+ JSString.join (chr c) (h :: t)).
    by rewrite IH.
  - destruct (JSString.split c s) as [|h t] eqn:E; [by destruct (split_nonempty c s)|].
    destruct t as [|h' t]; simpl in *; [by rewrite IH|].
    by rewrite sapp_cons, IH.
Qed.

End SplitFacts.

(** ** Facts on the escaper *)

Section EscapeFacts.

Lemma replaceAll_app c r a b :
  JSString.replaceAll c r (a +:+ b) =
  JSString.replaceAll c r a +:+ JSString.replaceAll c r b.
Proof.
  induction a as [|d a IH]; [done|].
  rewrite sapp_cons. simpl. destruct (Ascii.eqb d c).
  - by rewrite IH, sapp_assoc.
  - by rewrite IH, sapp_cons.
Qed.

Lemma escapeLine_cons c s : escapeLine (String c s) = escapeChar c +:+ escapeLine s.
Proof.
  unfold escapeLine, escapeChar. simpl JSString.replaceAll at 4.
  destruct (Ascii.eqb_spec c BACKSLASH) as [->|H1].
  { rewrite !replaceAll_app. reflexivity. }
  simpl JSString.replaceAll at 3.
  destruct (Ascii.eqb_spec c DQUOTE) as [->|H2].
  { rewrite !replaceAll_app. reflexivity. }
  simpl JSString.replaceAll at 2.
  destruct (Ascii.eqb_spec c TAB) as [->|H3].
  { rewrite !replaceAll_app. reflexivity. }
  simpl JSString.replaceAll at 1.
  destruct (Ascii.eqb_spec c CR) as [->|H4]; reflexivity.
Qed.

(** The four passes amount to one pass that rewrites each character on
    its own. *)
Lemma escapeLine_chars s : escapeLine s = escapeChars s.
Proof.
  induction s as [|c s IH]; [done|].
  rewrite escapeLine_cons. simpl. by rewrite IH.
Qed.

Lemma escapeChar_other c :
  c ≠ BACKSLASH → c ≠ DQUOTE → c ≠ TAB → c ≠ CR → escapeChar c = chr c.
Proof.
  intros H1 H2 H3 H4. unfold escapeChar.
  by rewrite (proj2 (Ascii.eqb_neq _ _) H1), (proj2 (Ascii.eqb_neq _ _) H2),
    (proj2 (Ascii.eqb_neq _ _) H3), (proj2 (Ascii.eqb_neq _ _) H4).
Qed.

Lemma noRawSpecial_escapeChars s : noRawSpecial (escapeChars s) = true.
Proof.
  induction s as [|c s IH]; [done|]. simpl. unfold escapeChar.
  destruct (Ascii.eqb_spec c BACKSLASH) as [->|H1]; [exact IH|].
  destruct (Ascii.eqb_spec c DQUOTE) as [->|H2]; [exact IH|].
  destruct (Ascii.eqb_spec c TAB) as [->|H3]; [exact IH|].
  destruct (Ascii.eqb_spec c CR) as [->|H4]; [exact IH|].
  unfold chr. rewrite sapp_cons, sapp_nil_l. simpl.
  by rewrite (proj2 (Ascii.eqb_neq _ _) H1), (proj2 (Ascii.eqb_neq _ _) H2),
    (proj2 (Ascii.eqb_neq _ _) H3), (proj2 (Ascii.eqb_neq _ _) H4).
Qed.

Lemma unescape_escapeChars s :
  unescape (escapeChars s) = JSString.replaceAll CR "" s.
Proof.
  induction s as [|c s IH]; [done|]. simpl. unfold escapeChar.
  destruct (Ascii.eqb_spec c BACKSLASH) as [->|H1]; [simpl; by rewrite <- IH|].
  destruct (Ascii.eqb_spec c DQUOTE) as [->|H2]; [simpl; by rewrite <- IH|].
  destruct (Ascii.eqb_spec c TAB) as [->|H3]; [simpl; by rewrite <- IH|].
  destruct (Ascii.eqb_spec c CR) as [->|H4]; [simpl; by rewrite <- IH|].
  unfold chr. rewrite sapp_cons, sapp_nil_l. simpl.
  rewrite (proj2 (Ascii.eqb_neq _ _) H1). by rewrite IH.
Qed.

Lemma count_app c a b :
  JSString.count c (a +:+ b) = JSString.count c a + JSString.count c b.
Proof.
  induction a as [|d a IH]; [done|].
  rewrite sapp_cons. simpl. rewrite IH. lia.
Qed.

Lemma escapeChars_no_tab_cr s :
  JSString.count TAB (escapeChars s) = 0 ∧ JSString.count CR (escapeChars s) = 0.
Proof.
  induction s as [|c s [IH1 IH2]]; [done|]. simpl. rewrite !count_app, IH1, IH2.
  unfold escapeChar.
  destruct (Ascii.eqb_spec c BACKSLASH) as [->|H1]; [done|].
  destruct (Ascii.eqb_spec c DQUOTE) as [->|H2]; [done|].
  destruct (Ascii.eqb_spec c TAB) as [->|H3]; [done|].
  destruct (Ascii.eqb_spec c CR) as [->|H4]; [done|].
  simpl. by rewrite (proj2 (Ascii.eqb_neq _ _) H3), (proj2 (Ascii.eqb_neq _ _) H4).
Qed.

End EscapeFacts.

(** C2. For every text, [escapeSnippetText] returns one string per line of
    the text, the lines being the pieces between newline characters (as
    many strings as the text has newline characters, plus one); each
    string is its line with backslash, double quote and tab escaped and
    carriage returns removed, every other character unchanged
    ([escapeChars], which the four ordered passes of the source compute);
    and no returned string holds a raw backslash, double quote, tab or
    carriage return. Reading the escapes back gives the line without its
    carriage returns. *)
Theorem escapeSnippetText_spec (T : string) :
  length (escapeSnippetText T) = S (JSString.count LF T)
  ∧ JSString.join nl (JSString.split LF T) = T
  ∧ Forall (λ l, JSString.count LF l = 0) (JSString.split LF T)
  ∧ escapeSnippetText T = map escapeChars (JSString.split LF T)
  ∧ (∀ c, c ≠ BACKSLASH → c ≠ DQUOTE → c ≠ TAB → c ≠ CR → escapeChar c = chr c)
  ∧ Forall (λ l, noRawSpecial l = true) (escapeSnippetText T)
  ∧ Forall (λ l, JSString.count TAB l = 0 ∧ JSString.count CR l = 0)
      (escapeSnippetText T)
  ∧ map unescape (escapeSnippetText T)
    = map (JSString.replaceAll CR "") (JSString.split LF T).
Proof.
  assert (Hchars : escapeSnippetText T = map escapeChars (JSString.split LF T)).
  { unfold escapeSnippetText. apply map_ext. intros l. apply escapeLine_chars. }
  split_and!.
  - unfold escapeSnippetText. by rewrite length_map, split_length.
  - apply join_split.
  - apply split_no_sep.
  - exact Hchars.
  - exact escapeChar_other.
  - rewrite Hchars. apply Forall_fmap, Forall_forall. intros l _.
    apply noRawSpecial_escapeChars.
  - rewrite Hchars. apply Forall_fmap, Forall_forall. intros l _.
    apply escapeChars_no_tab_cr.
  - rewrite Hchars, map_map. apply map_ext. intros l. apply unescape_escapeChars.
Qed.

(** ** Lines and columns *)

Section PositionFacts.

Lemma slice0_length n s : n ≤ String.length s → String.length (JSString.slice0 n s) = n.
Proof.
  revert n. induction s as [|d s IH]; intros [|n] Hn; simpl in *; try done; try lia.
  rewrite IH; [done|lia].
Qed.

(** When the character at [n] is not [c], looking for [c] up to and
    including position [n] is looking for it before position [n]. *)
Lemma lastOccurrence_slice0_S c n s :
  String.get n s ≠ Some c →
  JSString.lastOccurrence c (JSString.slice0 (S n) s)
  = JSString.lastOccurrence c (JSString.slice0 n s).
Proof.
  revert n. induction s as [|d s IH]; intros n Hget; [by destruct n|].
  destruct n as [|n].
  - simpl in *. destruct s; simpl; destruct (Ascii.eqb_spec d c); congruence.
  - change (JSString.slice0 (S (S n)) (String d s))
      with (String d (JSString.slice0 (S n) s)).
    change (JSString.slice0 (S n) (String d s)) with (String d (JSString.slice0 n s)).
    cbn [JSString.lastOccurrence]. by rewrite IH.
Qed.

Lemma lastOccurrence_lt c s i :
  JSString.lastOccurrence c s = Some i → i < String.length s.
Proof.
  revert i. induction s as [|d s IH]; intros i; simpl; [done|].
  destruct (JSString.lastOccurrence c s) as [j|].
  - intros [= <-]. specialize (IH j eq_refl). lia.
  - destruct (Ascii.eqb d c); intros [= <-]. lia.
Qed.

Lemma position_line s off line col :
  (position s off line col).1 = line + JSString.count LF (JSString.slice0 off s).
Proof.
  revert off line col. induction s as [|d s IH]; intros [|off] line col; simpl;
    try lia.
  destruct (Ascii.eqb d LF); rewrite IH; lia.
Qed.

Lemma position_column s off line col :
  (position s off line col).2 =
  match JSString.lastOccurrence LF (JSString.slice0 off s) with
  | Some i => String.length (JSString.slice0 off s) - i
  | None => col + String.length (JSString.slice0 off s)
  end.
Proof.
  revert off line col. induction s as [|d s IH]; intros [|off] line col; simpl;
    try lia.
  destruct (Ascii.eqb d LF); rewrite IH;
    destruct (JSString.lastOccurrence LF (JSString.slice0 off s)); lia.
Qed.

Lemma pretty_Z_of_nat (n : nat) : pretty (Z.of_nat n) = pretty n.
Proof. by destruct n. Qed.

(** The first piece of a split is the text up to its first separator. *)
Lemma split_head c s :
  ∃ h t after,
    JSString.split c s = h :: t ∧ JSString.count c h = 0
    ∧ s = h +:+ after ∧ (after = "" ∨ ∃ a, after = chr c +:+ a).
Proof.
  induction s as [|d s (h & t & after & Hs & Hh & Heq & Hafter)]; simpl.
  { exists "", [], "". auto. }
  destruct (Ascii.eqb_spec d c) as [->|Hne].
  - exists "", (JSString.split c s), (String c s). split_and!; try done.
    right. by exists s.
  - rewrite Hs. exists (String d h), t, after. split_and!; try done.
    + simpl. by rewrite (proj2 (Ascii.eqb_neq _ _) Hne).
    + by rewrite sapp_cons, <- Heq.
Qed.

Lemma line_at_offset s off :
  off ≤ String.length s →
  ∃ before line after,
    s = before +:+ line +:+ after
    ∧ JSString.split LF s !! JSString.count LF (JSString.slice0 off s) = Some line
    ∧ JSString.count LF line = 0
    ∧ (before = "" ∨ ∃ b, before = b +:+ nl)
    ∧ (after = "" ∨ ∃ a, after = nl +:+ a)
    ∧ String.length before ≤ off ≤ String.length before + String.length line
    ∧ JSString.count LF before = JSString.count LF (JSString.slice0 off s).
Proof.
  revert off. induction s as [|d s IH]; intros off Hoff.
  { simpl in Hoff. assert (off = 0) as -> by lia. exists "", "", "". simpl. auto 10. }
  destruct off as [|off].
  { destruct (split_head LF (String d s)) as (h & t & after & Hs & Hh & Heq & Hafter).
    exists "", h, after. rewrite Hs. simpl. split_and!; auto; lia. }
  simpl in Hoff.
  destruct (IH off ltac:(lia)) as (before & line & after & Heq & Hl & Hc & Hb & Ha & Hlen & Hcnt).
  change (JSString.slice0 (S off) (String d s)) with (String d (JSString.slice0 off s)).
  simpl JSString.split. simpl JSString.count.
  destruct (Ascii.eqb_spec d LF) as [->|Hne].
  - exists (String LF before), line, after. split_and!; auto.
    + by rewrite sapp_cons, <- Heq.
    + right. destruct Hb as [->|[b ->]]; [by exists ""|by exists (String LF b)].
    + simpl. lia.
    + simpl. lia.
    + simpl. by rewrite Hcnt.
  - simpl. destruct (JSString.count LF (JSString.slice0 off s)) as [|k] eqn:Hk.
    + assert (before = "") as ->.
      { destruct Hb as [->|[b ->]]; [done|].
        rewrite count_app in Hcnt. simpl in Hcnt. lia. }
      destruct (JSString.split LF s) as [|h t] eqn:Hs; [done|].
      simpl in Hl. injection Hl as ->.
      exists "", (String d line), after. split_and!; auto.
      * by rewrite sapp_nil_l, sapp_cons, Heq.
      * simpl. by rewrite (proj2 (Ascii.eqb_neq _ _) Hne).
      * simpl. lia.
      * simpl in *. lia.
    + destruct (JSString.split LF s) as [|h t] eqn:Hs; [done|].
      simpl in Hl.
      exists (String d before), line, after. split_and!; auto.
      * by rewrite sapp_cons, <- Heq.
      * destruct Hb as [->|[b ->]]; [simpl in Hcnt; lia|].
        right. by exists (String d b).
      * simpl. lia.
      * simpl. lia.
      * simpl. by rewrite (proj2 (Ascii.eqb_neq _ _) Hne).
Qed.

(** Under [atToken] the block the source builds carries the 1-based line
    and column of the offset and the whole offending line. *)
Lemma formatParseError_block content e :
  atToken content e →
  ∃ text,
    isLineAt content (jsonc.offset e) text
    ∧ formatParseError content e
      = errorBlock (position content (jsonc.offset e) 1 1).1
          (position content (jsonc.offset e) 1 1).2 (jsonc.error e) text.
Proof.
  intros [Hoff Hget].
  destruct (line_at_offset content (jsonc.offset e) Hoff)
    as (before & line & after & Heq & Hl & Hc & Hb & Ha & Hlen & Hcnt).
  exists line. split; [by exists before, after|].
  unfold formatParseError, errorBlock.
  rewrite split_length. simpl Nat.sub. rewrite Nat.sub_0_r, Hl. simpl orUndefined.
  rewrite position_line, position_column.
  unfold JSString.lastIndexOf. rewrite (lastOccurrence_slice0_S _ _ _ Hget).
  rewrite (slice0_length _ _ Hoff).
  replace (JSString.count LF (JSString.slice0 (jsonc.offset e) content) + 1)
    with (1 + JSString.count LF (JSString.slice0 (jsonc.offset e) content)) by lia.
  destruct (JSString.lastOccurrence LF (JSString.slice0 (jsonc.offset e) content))
    as [i|] eqn:Hlast.
  - apply lastOccurrence_lt in Hlast. rewrite (slice0_length _ _ Hoff) in Hlast.
    destruct (Z.eqb_spec (Z.of_nat i) (-1)) as [?|_]; [lia|].
    replace (Z.of_nat (jsonc.offset e) - Z.of_nat i - 1 + 1)%Z
      with (Z.of_nat (jsonc.offset e - i)) by lia.
    by rewrite pretty_Z_of_nat.
  - simpl. replace (Z.of_nat (jsonc.offset e) + 1)%Z
      with (Z.of_nat (1 + jsonc.offset e)) by lia.
    by rewrite pretty_Z_of_nat.
Qed.

End PositionFacts.

(** ** Lenient parser *)

(** Failure handling has two tiers.  When the parse mechanism returns with
    errors, each at a token or at the end of the text, the result is no
    snippets and a diagnostic made of the heading and, for each error in
    report order, the block for its line, column and code followed by the
    whole offending line.  When the parse mechanism throws, the result is
    no snippets and the message for a fatal error. *)
Lemma parseSnippetsFile_reports `{Platform} (content : string) (out : jsonc.outcome) :
  jsonc_parse content {| jsonc.allowTrailingComma := true |} = out →
  match out with
  | jsonc.Returned _ errs =>
      errs ≠ [] → Forall (atToken content) errs →
      ∃ blocks,
        parseSnippetsFile content
        = {| snippets := None;
             error := Some ("Parsing errors detected:" +:+ nl +:+ JSString.join nl blocks) |}
        ∧ Forall2 (λ e block, ∃ text,
                     isLineAt content (jsonc.offset e) text
                     ∧ block = errorBlock (position content (jsonc.offset e) 1 1).1
                                 (position content (jsonc.offset e) 1 1).2
                                 (jsonc.error e) text) errs blocks
  | jsonc.Threw e =>
      parseSnippetsFile content
      = {| snippets := None; error := Some ("Fatal parsing error: " +:+ e) |}
  end.
Proof.
  intros Hout. unfold parseSnippetsFile. rewrite Hout.
  destruct out as [result errs|e]; [|done].
  intros Hne Htok. exists (map (formatParseError content) errs).
  destruct errs as [|e0 errs]; [done|]. split; [done|].
  apply Forall2_fmap_r, Forall_Forall2_diag.
  eapply Forall_impl; [exact Htok|]. intros e He.
  destruct (formatParseError_block content e He) as (text & ? & ?). eauto.
Qed.

(** The diagnostic of the sample file, as the user reads it. *)
Example brokenFile_diagnostic :
  error (parseSnippetsFile (H := referencePlatform) brokenFile)
  = Some (dq ("Parsing errors detected:" +:+ nl +:+ "Line 2, Column 7: 5" +:+ nl
              +:+ "  'a' 1")).
Proof. reflexivity. Qed.

(** Were an error reported at an offset on a newline character, the column
    would read 0: the backward search of [lastIndexOf] starts on the
    offset itself.  Errors are reported at tokens, so this does not
    arise (see [parse_errors_atToken]). *)
Example column_at_newline :
  formatParseError ("a" +:+ nl +:+ "b")
    {| jsonc.error := 1; jsonc.offset := 1; jsonc.length := 1 |}
  = "Line 1, Column 0: 1" +:+ nl +:+ "a"
  ∧ position ("a" +:+ nl +:+ "b") 1 1 1 = (1, 2).
Proof. by vm_compute. Qed.


(** ** Objects and the merge *)

Section ObjectFacts.

Lemma has_true k o : JSObject.has k o = true ↔ k ∈ JSObject.keys o.
Proof.
  unfold JSObject.has. rewrite existsb_exists, list_elem_of_In. split.
  - intros (x & Hx & Heq). by apply String.eqb_eq in Heq as ->.
  - intros Hk. exists k. split; [done|]. apply String.eqb_refl.
Qed.

Lemma has_false k o : JSObject.has k o = false ↔ k ∉ JSObject.keys o.
Proof. rewrite <- has_true. by destruct (JSObject.has k o). Qed.

Lemma keys_app o1 o2 : JSObject.keys (o1 ++ o2) = JSObject.keys o1 ++ JSObject.keys o2.
Proof. apply map_app. Qed.

Lemma keys_replaceValue n e o :
  JSObject.keys (JSObject.replaceValue n e o) = JSObject.keys o.
Proof.
  induction o as [|[k v] o IH]; simpl; [done|].
  destruct (String.eqb k n); simpl; [done|]. by rewrite <- IH.
Qed.

Lemma get_replaceValue_eq n e o :
  n ∈ JSObject.keys o → JSObject.get n (JSObject.replaceValue n e o) = Some e.
Proof.
  induction o as [|[k v] o IH]; simpl; [by intros ?%elem_of_nil|].
  intros Hin. destruct (String.eqb_spec k n) as [->|Hne]; simpl.
  - by rewrite String.eqb_refl.
  - rewrite (proj2 (String.eqb_neq _ _) Hne). apply IH.
    apply elem_of_cons in Hin as [?|?]; [congruence|done].
Qed.

Lemma get_replaceValue_ne k n e o :
  k ≠ n → JSObject.get k (JSObject.replaceValue n e o) = JSObject.get k o.
Proof.
  intros Hkn. induction o as [|[k' v] o IH]; simpl; [done|].
  destruct (String.eqb_spec k' n) as [->|Hne]; simpl.
  - by rewrite (proj2 (String.eqb_neq _ _) (not_eq_sym Hkn)).
  - by rewrite IH.
Qed.

Lemma get_middle_eq n e l1 l2 :
  n ∉ JSObject.keys l1 → JSObject.get n (l1 ++ (n, e) :: l2) = Some e.
Proof.
  induction l1 as [|[k v] l1 IH]; simpl; intros Hn.
  - by rewrite String.eqb_refl.
  - apply not_elem_of_cons in Hn as [Hne Hn].
    rewrite (proj2 (String.eqb_neq _ _) (not_eq_sym Hne)). by apply IH.
Qed.

Lemma get_middle_ne k n e l1 l2 :
  k ≠ n → JSObject.get k (l1 ++ (n, e) :: l2) = JSObject.get k (l1 ++ l2).
Proof.
  intros Hkn. induction l1 as [|[k' v] l1 IH]; simpl.
  - by rewrite (proj2 (String.eqb_neq _ _) (not_eq_sym Hkn)).
  - by rewrite IH.
Qed.

Lemma insertIndex_middle i n e o :
  ∃ l1 l2, o = l1 ++ l2 ∧ JSObject.insertIndex i n e o = l1 ++ (n, e) :: l2.
Proof.
  induction o as [|[k v] o (l1 & l2 & -> & IH)]; simpl.
  - by exists [], [].
  - destruct (JSObject.arrayIndex k) as [j|]; [destruct (j <? i)%N|].
    + exists ((k, v) :: l1), l2. by rewrite IH.
    + by exists [], ((k, v) :: l1 ++ l2).
    + by exists [], ((k, v) :: l1 ++ l2).
Qed.

(** A property either overwrites its earlier value in place or enters the
    list without disturbing the properties already there. *)
Lemma createDataProperty_cases n e o :
  (n ∈ JSObject.keys o
   ∧ JSObject.createDataProperty n e o = JSObject.replaceValue n e o)
  ∨ ((n ∉ JSObject.keys o)
     ∧ ∃ l1 l2, o = l1 ++ l2 ∧ JSObject.createDataProperty n e o = l1 ++ (n, e) :: l2).
Proof.
  unfold JSObject.createDataProperty.
  destruct (JSObject.has n o) eqn:Hhas.
  - left. by apply has_true in Hhas.
  - right. apply has_false in Hhas. split; [done|].
    destruct (JSObject.arrayIndex n) as [i|]; [apply insertIndex_middle|].
    exists o, []. by rewrite app_nil_r.
Qed.

Lemma get_createDataProperty_eq n e o :
  JSObject.get n (JSObject.createDataProperty n e o) = Some e.
Proof.
  destruct (createDataProperty_cases n e o) as [[Hin ->]|(Hn & l1 & l2 & -> & ->)].
  - by apply get_replaceValue_eq.
  - apply get_middle_eq. rewrite keys_app in Hn. by apply not_elem_of_app in Hn as [? _].
Qed.

Lemma get_createDataProperty_ne k n e o :
  k ≠ n → JSObject.get k (JSObject.createDataProperty n e o) = JSObject.get k o.
Proof.
  intros Hkn.
  destruct (createDataProperty_cases n e o) as [[Hin ->]|(Hn & l1 & l2 & -> & ->)].
  - by apply get_replaceValue_ne.
  - by apply get_middle_ne.
Qed.

Lemma insertIndex_last i k v acc :
  JSObject.arrayIndex k = Some i →
  Forall (λ a, JSObject.precedes a k) (JSObject.keys acc) →
  JSObject.insertIndex i k v acc = acc ++ [(k, v)].
Proof.
  intros Hk. induction acc as [|[a w] acc IH]; simpl; [done|].
  intros [Ha Hacc]%Forall_cons. unfold JSObject.precedes in Ha. rewrite Hk in Ha.
  destruct (JSObject.arrayIndex a) as [j|]; [|done].
  apply N.ltb_lt in Ha. rewrite Ha. by rewrite IH.
Qed.

Lemma createDataProperty_last k v acc :
  k ∉ JSObject.keys acc →
  Forall (λ a, JSObject.precedes a k) (JSObject.keys acc) →
  JSObject.createDataProperty k v acc = acc ++ [(k, v)].
Proof.
  intros Hk Hall. unfold JSObject.createDataProperty.
  rewrite (proj2 (has_false _ _) Hk).
  destruct (JSObject.arrayIndex k) as [i|] eqn:Hi; [|done].
  by apply insertIndex_last.
Qed.

Lemma spread_onto acc rest :
  NoDup (JSObject.keys (acc ++ rest)) →
  StronglySorted JSObject.precedes (JSObject.keys (acc ++ rest)) →
  fold_left (λ acc kv, JSObject.createDataProperty kv.1 kv.2 acc) rest acc = acc ++ rest.
Proof.
  revert acc. induction rest as [|[k v] rest IH]; intros acc Hnd Hss; simpl.
  { by rewrite app_nil_r. }
  assert (Happ : acc ++ (k, v) :: rest = (acc ++ [(k, v)]) ++ rest)
    by (by rewrite <- app_assoc).
  rewrite createDataProperty_last.
  - rewrite IH; [by rewrite <- app_assoc| by rewrite <- Happ..].
  - rewrite keys_app in Hnd. apply NoDup_app in Hnd as (_ & Hnd & _).
    intros Hin. apply (Hnd k Hin). simpl. apply elem_of_cons. by left.
  - rewrite keys_app in Hss. apply Forall_forall. intros a Ha.
    eapply StronglySorted_app_1_elem_of; [exact Hss|done|]. simpl. apply elem_of_cons. by left.
Qed.

(** Spreading a JavaScript object into an empty literal copies it. *)
Lemma spread_wellFormed o :
  JSObject.wellFormed o → JSObject.spread (JObj o) [] = o.
Proof. intros [Hnd Hss]. unfold JSObject.spread. simpl. by apply spread_onto. Qed.

End ObjectFacts.

(** C5. For every snippet mapping [M] (a JavaScript object), name [n] and
    entry [e], the merge binds [n] to [e], leaves every other key bound to
    the value it had, and keeps the keys that were there in the order they
    had: an existing [n] keeps its place, a new [n] enters without moving
    the others. *)
Theorem mergeSnippet_frame (M : list (string * json)) (n : string) (e : json) :
  JSObject.wellFormed M →
  JSObject.get n (mergeSnippet (Some (JObj M)) n e) = Some e
  ∧ (∀ k, k ≠ n →
       JSObject.get k (mergeSnippet (Some (JObj M)) n e) = JSObject.get k M)
  ∧ filter (λ k, k ≠ n) (JSObject.keys (mergeSnippet (Some (JObj M)) n e))
    = filter (λ k, k ≠ n) (JSObject.keys M)
  ∧ (n ∈ JSObject.keys M →
     JSObject.keys (mergeSnippet (Some (JObj M)) n e) = JSObject.keys M)
  ∧ (n ∉ JSObject.keys M →
     ∃ l1 l2, JSObject.keys M = l1 ++ l2
              ∧ JSObject.keys (mergeSnippet (Some (JObj M)) n e) = l1 ++ n :: l2).
Proof.
  intros Hwf. unfold mergeSnippet. simpl. rewrite (spread_wellFormed M Hwf).
  assert (Hold : n ∈ JSObject.keys M →
    JSObject.keys (JSObject.createDataProperty n e M) = JSObject.keys M).
  { intros Hin.
    destruct (createDataProperty_cases n e M) as [[_ ->]|[Hn _]]; [|done].
    apply keys_replaceValue. }
  assert (Hnew : n ∉ JSObject.keys M →
    ∃ l1 l2, JSObject.keys M = l1 ++ l2
             ∧ JSObject.keys (JSObject.createDataProperty n e M) = l1 ++ n :: l2).
  { intros Hn.
    destruct (createDataProperty_cases n e M) as [[Hin _]|(_ & l1 & l2 & HM & ->)];
      [done|].
    exists (JSObject.keys l1), (JSObject.keys l2). subst M.
    by rewrite !keys_app. }
  split_and!; [apply get_createDataProperty_eq| |  |exact Hold|exact Hnew].
  - intros k Hk. by apply get_createDataProperty_ne.
  - destruct (decide (n ∈ JSObject.keys M)) as [Hin|Hn].
    + by rewrite Hold.
    + destruct (Hnew Hn) as (l1 & l2 & -> & ->).
      rewrite !filter_app, filter_cons_False; [done|]. by intros ?.
Qed.

Lemma mergeSnippet_frame_witness :
  JSObject.get "b" (mergeSnippet (Some (JObj [("0", JNull); ("a", sampleEntry)])) "b" sampleEntry)
  = Some sampleEntry
  ∧ (∀ k, k ≠ "b" →
       JSObject.get k (mergeSnippet (Some (JObj [("0", JNull); ("a", sampleEntry)])) "b" sampleEntry)
       = JSObject.get k [("0", JNull); ("a", sampleEntry)])
  ∧ filter (λ k, k ≠ "b")
      (JSObject.keys (mergeSnippet (Some (JObj [("0", JNull); ("a", sampleEntry)])) "b" sampleEntry))
    = filter (λ k, k ≠ "b") (JSObject.keys [("0", JNull); ("a", sampleEntry)])
  ∧ ("b" ∈ JSObject.keys [("0", JNull); ("a", sampleEntry)] →
     JSObject.keys (mergeSnippet (Some (JObj [("0", JNull); ("a", sampleEntry)])) "b" sampleEntry)
     = JSObject.keys [("0", JNull); ("a", sampleEntry)])
  ∧ ("b" ∉ JSObject.keys [("0", JNull); ("a", sampleEntry)] →
     ∃ l1 l2, JSObject.keys [("0", JNull); ("a", sampleEntry)] = l1 ++ l2
              ∧ JSObject.keys (mergeSnippet (Some (JObj [("0", JNull); ("a", sampleEntry)])) "b" sampleEntry)
                = l1 ++ "b" :: l2).
Proof.
  apply (mergeSnippet_frame [("0", JNull); ("a", sampleEntry)] "b" sampleEntry).
  apply (bool_decide_unpack _). vm_compute. exact I.
Defined.

(** A name that is an array index enters among the index keys, an existing
    name keeps its place, any other name goes last. *)
Example mergeSnippet_orders :
  JSObject.keys (mergeSnippet (Some (JObj [("0", JNull); ("7", JNull); ("a", JNull)])) "3" JNull)
  = ["0"; "3"; "7"; "a"]
  ∧ JSObject.keys (mergeSnippet (Some (JObj [("a", JNull); ("b", JNull)])) "a" sampleEntry)
    = ["a"; "b"]
  ∧ JSObject.keys (mergeSnippet (Some (JObj [("a", JNull); ("b", JNull)])) "c" sampleEntry)
    = ["a"; "b"; "c"].
Proof. by vm_compute. Qed.

(** ** Path resolution *)

Section IncludesFacts.

Lemma prefix_spec sub s : String.prefix sub s = true ↔ ∃ b, s = sub +:+ b.
Proof.
  revert s. induction sub as [|c sub IH]; intros s.
  { split; [by exists s|]. by destruct s. }
  destruct s as [|d s]; simpl.
  { split; [done|]. intros [b Hb]. by rewrite sapp_cons in Hb. }
  destruct (ascii_dec c d) as [->|Hne].
  - rewrite IH. split; intros [b Hb]; exists b.
    + by rewrite sapp_cons, Hb.
    + rewrite sapp_cons in Hb. by injection Hb.
  - split; [done|]. intros [b Hb]. rewrite sapp_cons in Hb. by injection Hb.
Qed.

(** [includes] decides occurrence as a substring. *)
Lemma includes_spec sub s : JSString.includes sub s = true ↔ occursIn sub s.
Proof.
  split.
  - induction s as [|d s IH].
    + change (JSString.includes sub "") with (String.prefix sub "" || false).
      rewrite orb_true_iff. intros [Hp|?]; [|done].
      apply prefix_spec in Hp as [b Hb]. by exists "", b.
    + change (JSString.includes sub (String d s))
        with (String.prefix sub (String d s) || JSString.includes sub s).
      rewrite orb_true_iff. intros [Hp|Hi].
      * apply prefix_spec in Hp as [b Hb]. by exists "", b.
      * destruct (IH Hi) as (a & b & ->). by exists (String d a), b.
  - intros (a & b & ->). induction a as [|d a IH].
    + rewrite sapp_nil_l.
      assert (Hp : String.prefix sub (sub +:+ b) = true) by (apply prefix_spec; eauto).
      destruct (sub +:+ b) as [|d r].
      * change (JSString.includes sub "") with (String.prefix sub "" || false).
        by rewrite Hp.
      * change (JSString.includes sub (String d r))
          with (String.prefix sub (String d r) || JSString.includes sub r).
        by rewrite Hp.
    + rewrite sapp_cons.
      change (JSString.includes sub (String d (a +:+ sub +:+ b)))
        with (String.prefix sub (String d (a +:+ sub +:+ b))
              || JSString.includes sub (a +:+ sub +:+ b)).
      rewrite IH. apply orb_true_r.
Qed.

End IncludesFacts.

(** C6. The folder of the configuration is chosen in three ways from the
    product name: exactly [Visual Studio Code] gives [Code]; any other
    name in which [Cursor] occurs gives [Cursor]; every other name, such
    as [FooEditor], is the folder name as it stands.  The path of the
    snippet file joins the base directory, that folder, [User], [snippets]
    and the language id with [.json] appended, the language id unchanged.
    The base directory is the value of [APPDATA] when it is set and not
    empty, else the value of [HOME], else the empty string.  So on a host
    without [APPDATA] the path starts at the home directory itself: for
    the home [/home/u] and Visual Studio Code it is
    [/home/u/Code/User/snippets/python.json], with no configuration
    directory between the home and [Code]. *)
Theorem path_resolution `{Platform} (host : Host) (languageId : string) :
  (appName host = "Visual Studio Code" → configFolder (getEditorInfo host) = "Code")
  ∧ (appName host ≠ "Visual Studio Code" → occursIn "Cursor" (appName host) →
     configFolder (getEditorInfo host) = "Cursor")
  ∧ (appName host ≠ "Visual Studio Code" → ¬ occursIn "Cursor" (appName host) →
     configFolder (getEditorInfo host) = appName host)
  ∧ configFolder (getEditorInfo {| appName := "FooEditor"; APPDATA := APPDATA host;
                                   HOME := HOME host |}) = "FooEditor"
  ∧ (∀ a, APPDATA host = Some a → a ≠ "" → baseDir host = a)
  ∧ (APPDATA host = None ∨ APPDATA host = Some "" →
     ∀ h, HOME host = Some h → baseDir host = h)
  ∧ (APPDATA host = None ∨ APPDATA host = Some "" → HOME host = None → baseDir host = "")
  ∧ snippetsPath host languageId
    = path_join [baseDir host; configFolder (getEditorInfo host); "User"; "snippets";
                 languageId +:+ ".json"]
  ∧ (∀ h, APPDATA host = None → HOME host = Some h →
       appName host = "Visual Studio Code" →
       snippetsPath host languageId
       = path_join [h; "Code"; "User"; "snippets"; languageId +:+ ".json"])
  ∧ snippetsPath (H := referencePlatform) sampleHost "python"
    = "/home/u/Code/User/snippets/python.json"
  ∧ JSString.includes ".config" (snippetsPath (H := referencePlatform) sampleHost "python")
    = false.
Proof.
  split_and!.
  - unfold configFolder, getEditorInfo. simpl. by intros ->.
  - unfold configFolder, getEditorInfo. simpl.
    intros Hne Hocc. rewrite (proj2 (String.eqb_neq _ _) Hne).
    by rewrite (proj2 (includes_spec _ _) Hocc).
  - unfold configFolder, getEditorInfo. simpl.
    intros Hne Hocc. rewrite (proj2 (String.eqb_neq _ _) Hne).
    destruct (JSString.includes "Cursor" (appName host)) eqn:Hinc; [|done].
    by apply includes_spec in Hinc.
  - done.
  - intros a Ha Hne. unfold baseDir. rewrite Ha. simpl. by destruct a.
  - intros Ha h Hh. unfold baseDir. rewrite Hh.
    destruct Ha as [-> | ->]; simpl; by destruct h.
  - intros Ha Hh. unfold baseDir. rewrite Hh. by destruct Ha as [-> | ->].
  - done.
  - intros h Ha Hh Hname. unfold snippetsPath, baseDir, configFolder, getEditorInfo.
    rewrite Ha, Hh, Hname. simpl. by destruct h.
  - by vm_compute.
  - by vm_compute.
Qed.

(** The three ways on the reference platform, with the path spelled out. *)
Example path_resolution_examples :
  snippetsPath (H := referencePlatform)
    {| appName := "Visual Studio Code"; APPDATA := None; HOME := Some "/home/u" |} "python"
  = "/home/u/Code/User/snippets/python.json"
  ∧ snippetsPath (H := referencePlatform)
      {| appName := "Cursor Nightly"; APPDATA := Some "/cfg"; HOME := Some "/home/u" |} "lua"
    = "/cfg/Cursor/User/snippets/lua.json"
  ∧ snippetsPath (H := referencePlatform)
      {| appName := "FooEditor"; APPDATA := Some ""; HOME := None |} "c"
    = "FooEditor/User/snippets/c.json".
Proof. by vm_compute. Qed.

(** ** Interaction flow *)

Ltac run_flow :=
  unfold collectSnippetInfo, showInputBox, mbind, M_bind, mret, M_ret,
    afterPrefixPrompt, afterDescriptionPrompt, withLanguage; simpl.

Lemma truthy_ne s : s ≠ "" → JSString.truthy s = true.
Proof. by destruct s. Qed.

(** With a name and a prefix input that are not empty, the flow shows the
    description box, whatever its answer, and goes on to resolve the
    language. *)
Lemma collectSnippetInfo_proceeds doc w snippetName prefixInput d rest :
  answers w = Some snippetName :: Some prefixInput :: d :: rest →
  snippetName ≠ "" → prefixInput ≠ "" →
  collectSnippetInfo doc w
  = withLanguage snippetName (splitPrefixes prefixInput)
      (if answered d then default "" d else snippetName)
      (determineLanguage doc (afterDescriptionPrompt w rest)).
Proof.
  intros Hans Hn Hp. destruct w as [f a t]. simpl in Hans. subst a.
  run_flow. rewrite (truthy_ne _ Hn). simpl. rewrite (truthy_ne _ Hp). simpl.
  rewrite <- !app_assoc. simpl.
  destruct (determineLanguage doc _) as [[[l|]|e] w']; reflexivity.
Qed.

(** C10. Dismissing the description box does not abort the flow: as for
    an empty answer, the flow goes on to language resolution and the
    description it stores is the snippet name. *)
Theorem description_defaults_to_name (doc : TextDocument) (w : World)
    (snippetName prefixInput : string) (d : option string) (rest : list (option string)) :
  answers w = Some snippetName :: Some prefixInput :: d :: rest →
  snippetName ≠ "" → prefixInput ≠ "" →
  d = None ∨ d = Some "" →
  collectSnippetInfo doc w
  = withLanguage snippetName (splitPrefixes prefixInput) snippetName
      (determineLanguage doc (afterDescriptionPrompt w rest)).
Proof.
  intros Hans Hn Hp Hd.
  rewrite (collectSnippetInfo_proceeds doc w snippetName prefixInput d rest Hans Hn Hp).
  by destruct Hd as [-> | ->].
Qed.

Lemma description_defaults_to_name_witness :
  collectSnippetInfo (document sampleEditor)
    (userTyping emptyHome [Some "Test"; Some "a, b"; None])
  = withLanguage "Test" (splitPrefixes "a, b") "Test"
      (determineLanguage (document sampleEditor)
         (afterDescriptionPrompt (userTyping emptyHome [Some "Test"; Some "a, b"; None]) []))
  ∧ collectSnippetInfo {| languageId := "plaintext" |}
      (userTyping emptyHome [Some "Test"; Some "a, b"; Some ""; Some "Lua"])
    = withLanguage "Test" (splitPrefixes "a, b") "Test"
        (determineLanguage {| languageId := "plaintext" |}
           (afterDescriptionPrompt
              (userTyping emptyHome [Some "Test"; Some "a, b"; Some ""; Some "Lua"])
              [Some "Lua"])).
Proof.
  split.
  - apply (description_defaults_to_name (document sampleEditor)
             (userTyping emptyHome [Some "Test"; Some "a, b"; None])
             "Test" "a, b" None []); [reflexivity | done | done | by left].
  - apply (description_defaults_to_name {| languageId := "plaintext" |}
             (userTyping emptyHome [Some "Test"; Some "a, b"; Some ""; Some "Lua"])
             "Test" "a, b" (Some "") [Some "Lua"]); [reflexivity | done | done | by right].
Defined.

(** What these two runs return. *)
Example description_cancelled_run :
  (collectSnippetInfo (document sampleEditor)
     (userTyping emptyHome [Some "Test"; Some "a, b"; None])).1
  = Ok (Some {| name := "Test"; prefixes := ["a"; "b"]; description := "Test";
                language := "python" |})
  ∧ (collectSnippetInfo {| languageId := "plaintext" |}
       (userTyping emptyHome [Some "Test"; Some "a, b"; Some ""; Some "Lua"])).1
    = Ok (Some {| name := "Test"; prefixes := ["a"; "b"]; description := "Test";
                  language := "lua" |}).
Proof. by vm_compute. Qed.

(** ** Persistence *)

Ltac run_save :=
  unfold saveSnippet, existsSync, mkdirSync, readFileSync, writeFileSync, getFS, putFS,
    emit, throw, mbind, M_bind, mret, M_ret; simpl.

Section SaveFacts.
Context `{Platform}.

(** The diagnostic of a failed parse is never the empty string. *)
Lemma parse_failure_diagnostic content out :
  jsonc_parse content {| jsonc.allowTrailingComma := true |} = out →
  failed out →
  error (parseSnippetsFile content) = Some (failureReport content out)
  ∧ answered (error (parseSnippetsFile content)) = true.
Proof.
  intros Hout Hfail. unfold parseSnippetsFile. rewrite Hout.
  destruct out as [result [|e0 errs]|e]; done.
Qed.

Lemma saveSnippet_existing_unparsable host info text w content diagnostic :
  files (fs w) !! snippetsPath host (language info) = Some content →
  path_dirname (snippetsPath host (language info)) ∈ dirs (fs w) →
  error (parseSnippetsFile content) = Some diagnostic →
  answered (Some diagnostic) = true →
  saveSnippet host info text w
  = (Throw ("Error parsing existing snippets: " +:+ diagnostic),
     {| fs := fs w; answers := answers w;
        trace := trace w ++ [ExistsSync (path_dirname (snippetsPath host (language info)));
                             ExistsSync (snippetsPath host (language info));
                             ReadFileSync (snippetsPath host (language info))] |}).
Proof.
  intros Hfile Hdir Herr Hans. destruct w as [[fl ds] a t]. simpl in Hfile, Hdir.
  run_save.
  rewrite (bool_decide_eq_true_2 _ Hdir), orb_true_r. simpl.
  rewrite Hfile. simpl. rewrite Hfile. simpl.
  rewrite Herr, Hans. simpl. by rewrite <- !app_assoc.
Qed.

End SaveFacts.

Section SaveFresh.
Context `{Platform}.

Lemma mergeSnippet_empty n e : mergeSnippet (Some (JObj [])) n e = [(n, e)].
Proof.
  unfold mergeSnippet, JSObject.spread, JSObject.createDataProperty. simpl.
  by destruct (JSObject.arrayIndex n).
Qed.

Lemma parse_empty_object :
  jsonc_parse "{}" {| jsonc.allowTrailingComma := true |} = jsonc.Returned (JObj []) [] →
  parseSnippetsFile "{}" = {| snippets := Some (JObj []); error := None |}.
Proof. intros Hp. unfold parseSnippetsFile. by rewrite Hp. Qed.

(** Saving into a file that does not exist yet creates its directory when
    needed and writes a mapping with the one new entry. *)
Lemma saveSnippet_fresh host info text w :
  jsonc_parse "{}" {| jsonc.allowTrailingComma := true |} = jsonc.Returned (JObj []) [] →
  absentTarget (fs w) (snippetsPath host (language info)) →
  ∃ w',
    saveSnippet host info text w = (Ok (), w')
    ∧ files (fs w')
      = <[snippetsPath host (language info)
          := JSON.stringify (JObj [(name info, newSnippet info text)])]> (files (fs w))
    ∧ path_dirname (snippetsPath host (language info)) ∈ dirs (fs w')
    ∧ answers w' = answers w.
Proof.
  intros Hparse (Hfile & Hnodir & Hfree & Hself).
  destruct w as [[fl ds] a t]. simpl in Hfile, Hnodir, Hfree.
  set (path := snippetsPath host (language info)) in *.
  set (dir := path_dirname path) in *.
  assert (Hdirfile : fl !! dir = None) by (by apply Forall_cons in Hfree as [? _]).
  assert (Hblocked : bool_decide (Exists (λ p, is_Some (fl !! p)) (dir :: parents dir)) = false).
  { apply bool_decide_eq_false_2. rewrite Exists_exists. intros (p & Hp & [c Hc]).
    rewrite Forall_forall in Hfree. specialize (Hfree p Hp). congruence. }
  run_save. fold path. fold dir.
  rewrite Hdirfile. rewrite (bool_decide_eq_false_2 (is_Some None)) by (by intros [? ?]).
  simpl.
  destruct (bool_decide (dir ∈ ds)) eqn:Hdir; simpl.
  - apply bool_decide_eq_true_1 in Hdir.
    rewrite Hfile. rewrite (bool_decide_eq_false_2 (is_Some None)) by (by intros [? ?]).
    rewrite (bool_decide_eq_false_2 _ Hnodir). simpl.
    rewrite (parse_empty_object Hparse). simpl.
    rewrite (bool_decide_eq_false_2 _ Hnodir), (bool_decide_eq_true_2 _ Hdir). simpl.
    rewrite mergeSnippet_empty. eauto.
  - rewrite Hblocked. simpl.
    rewrite Hfile. rewrite (bool_decide_eq_false_2 (is_Some None)) by (by intros [? ?]).
    assert (Hnew : path ∉ ds ∪ list_to_set (dir :: parents dir)).
    { rewrite elem_of_union, elem_of_list_to_set. tauto. }
    assert (Hdirnew : dir ∈ ds ∪ list_to_set (dir :: parents dir)).
    { rewrite elem_of_union, elem_of_list_to_set. right. apply elem_of_cons. by left. }
    rewrite (bool_decide_eq_false_2 _ Hnew). simpl.
    rewrite (parse_empty_object Hparse). simpl.
    rewrite (bool_decide_eq_false_2 _ Hnew), (bool_decide_eq_true_2 _ Hdirnew). simpl.
    rewrite mergeSnippet_empty. eauto.
Qed.

End SaveFresh.

Section Handler.
Context `{Platform}.

Lemma createSnippet_collected host editor w info w1 :
  selectedText editor ≠ "" →
  collectSnippetInfo (document editor) w = (Ok (Some info), w1) →
  createSnippet host (Some editor) w
  = tryCatch
      (saveSnippet host info (selectedText editor);;
       showInformationMessage
         ("Snippet " +:+ chr DQUOTE +:+ name info +:+ chr DQUOTE +:+ " added successfully!"))
      (λ e, showErrorMessage ("Error creating snippet: " +:+ errorToString e);;
            consoleError "Error details:" (errorToString e)) w1.
Proof.
  intros Hsel Hcollect. unfold createSnippet. rewrite (truthy_ne _ Hsel). simpl.
  unfold mbind at 1, M_bind at 1. by rewrite Hcollect.
Qed.

Lemma createSnippet_aborted host editor w w1 :
  selectedText editor ≠ "" →
  collectSnippetInfo (document editor) w = (Ok None, w1) →
  createSnippet host (Some editor) w = (Ok (), w1).
Proof.
  intros Hsel Hcollect. unfold createSnippet. rewrite (truthy_ne _ Hsel). simpl.
  unfold mbind at 1, M_bind at 1. by rewrite Hcollect.
Qed.

End Handler.

Lemma collectSnippetInfo_no_prefix doc w snippetName p rest :
  answers w = Some snippetName :: p :: rest →
  snippetName ≠ "" → p = None ∨ p = Some "" →
  collectSnippetInfo doc w = (Ok None, afterPrefixPrompt w rest).
Proof.
  intros Hans Hn Hp. destruct w as [f a t]. simpl in Hans. subst a.
  run_flow. rewrite (truthy_ne _ Hn). simpl.
  destruct Hp as [-> | ->]; simpl; by rewrite <- !app_assoc.
Qed.

(** C1, amended. The prefixes input is split on commas, each piece is
    trimmed and the empty pieces are dropped.  The flow aborts, with no
    file read or written, when the prefixes box is dismissed or answered
    with the empty string.  An answer that is not empty lets the flow go
    on with the pieces that remain, even when none remains. *)
Theorem prefixes_prompt_flow `{Platform} (host : Host) (editor : TextEditor) (w : World)
    (snippetName : string) (p : option string) (rest : list (option string)) :
  selectedText editor ≠ "" →
  answers w = Some snippetName :: p :: rest →
  snippetName ≠ "" →
  (∀ s, splitPrefixes s
        = filter (λ x, x ≠ "") (map JSString.trim (JSString.split "," s)))
  ∧ (p = None ∨ p = Some "" →
     createSnippet host (Some editor) w = (Ok (), afterPrefixPrompt w rest))
  ∧ (∀ s d rest', p = Some s → s ≠ "" → rest = d :: rest' →
       collectSnippetInfo (document editor) w
       = withLanguage snippetName (splitPrefixes s)
           (if answered d then default "" d else snippetName)
           (determineLanguage (document editor) (afterDescriptionPrompt w rest'))).
Proof.
  intros Hsel Hans Hn. split_and!.
  - done.
  - intros Hp. apply createSnippet_aborted; [done|].
    by apply (collectSnippetInfo_no_prefix _ _ snippetName p).
  - intros s d rest' -> Hs ->. by apply collectSnippetInfo_proceeds.
Qed.

Lemma prefixes_prompt_flow_witness :
  createSnippet (H := referencePlatform) sampleHost (Some sampleEditor)
    (userTyping emptyHome [Some "Test"; Some ""; Some "never asked"])
  = (Ok (), afterPrefixPrompt
              (userTyping emptyHome [Some "Test"; Some ""; Some "never asked"])
              [Some "never asked"])
  ∧ collectSnippetInfo (document sampleEditor)
      (userTyping emptyHome [Some "Test"; Some ", ,"; None])
    = withLanguage "Test" (splitPrefixes ", ,") "Test"
        (determineLanguage (document sampleEditor)
           (afterDescriptionPrompt
              (userTyping emptyHome [Some "Test"; Some ", ,"; None]) [])).
Proof.
  split.
  - refine (proj1 (proj2 (prefixes_prompt_flow (H := referencePlatform) sampleHost
                            sampleEditor
                            (userTyping emptyHome [Some "Test"; Some ""; Some "never asked"])
                            "Test" (Some "") [Some "never asked"] _ _ _)) _);
      [by vm_compute | reflexivity | by vm_compute | by right].
  - refine (proj2 (proj2 (prefixes_prompt_flow (H := referencePlatform) sampleHost
                            sampleEditor
                            (userTyping emptyHome [Some "Test"; Some ", ,"; None])
                            "Test" (Some ", ,") [None] _ _ _)) ", ," None [] _ _ _);
      [by vm_compute | reflexivity | by vm_compute | reflexivity | by vm_compute
      | reflexivity].
Defined.

(** C1 as stated fails: an answer made of commas and spaces leaves no
    prefix, yet the flow goes on and the snippet file is written, with an
    empty list of prefixes. *)
Lemma blank_prefixes_are_saved :
  splitPrefixes ", ," = []
  ∧ (createSnippet (H := referencePlatform) sampleHost (Some sampleEditor)
       (userTyping emptyHome [Some "Test"; Some ", ,"; None])).1 = Ok ()
  ∧ files (fs (createSnippet (H := referencePlatform) sampleHost (Some sampleEditor)
                 (userTyping emptyHome [Some "Test"; Some ", ,"; None])).2) !! samplePath
    = Some blankPrefixesFile
  ∧ filter touchesFiles
      (trace (createSnippet (H := referencePlatform) sampleHost (Some sampleEditor)
                (userTyping emptyHome [Some "Test"; Some ", ,"; None])).2)
    = [ExistsSync sampleDir; MkdirSync sampleDir; ExistsSync samplePath;
       WriteFileSync samplePath blankPrefixesFile].
Proof. by vm_compute. Qed.

(** C4. When the snippet file exists and its content fails to parse
    (errors were reported, or the parse mechanism threw), the save throws
    an error whose message carries the parser's report, and writes
    nothing: the files are what they were, and the only file operations
    are the two existence tests and the read. *)
Theorem saveSnippet_parse_failure `{Platform} (host : Host) (info : SnippetInfo)
    (text : string) (w : World) (content : string) (out : jsonc.outcome) :
  consistent (fs w) →
  files (fs w) !! snippetsPath host (language info) = Some content →
  jsonc_parse content {| jsonc.allowTrailingComma := true |} = out →
  failed out →
  error (parseSnippetsFile content) = Some (failureReport content out)
  ∧ saveSnippet host info text w
    = (Throw ("Error parsing existing snippets: " +:+ failureReport content out),
       {| fs := fs w; answers := answers w;
          trace := trace w
                   ++ [ExistsSync (path_dirname (snippetsPath host (language info)));
                       ExistsSync (snippetsPath host (language info));
                       ReadFileSync (snippetsPath host (language info))] |}).
Proof.
  intros Hfs Hfile Hout Hfail.
  destruct (parse_failure_diagnostic content out Hout Hfail) as [Herr Hans].
  split; [exact Herr|].
  apply (saveSnippet_existing_unparsable host info text w content); try done.
  - exact (Hfs _ _ Hfile).
  - by rewrite Herr in Hans.
Qed.

Lemma saveSnippet_parse_failure_witness :
  error (parseSnippetsFile (H := referencePlatform) brokenFile)
  = Some (failureReport brokenFile
            (jsonc.Returned JNull
               [{| jsonc.error := 5; jsonc.offset := 8; jsonc.length := 1 |}]))
  ∧ saveSnippet (H := referencePlatform) sampleHost sampleInfo sampleSelection
      (userTyping brokenHome [])
    = (Throw ("Error parsing existing snippets: "
              +:+ failureReport brokenFile
                    (jsonc.Returned JNull
                       [{| jsonc.error := 5; jsonc.offset := 8; jsonc.length := 1 |}])),
       {| fs := brokenHome; answers := [];
          trace := [] ++ [ExistsSync sampleDir; ExistsSync samplePath;
                          ReadFileSync samplePath] |}).
Proof.
  apply (saveSnippet_parse_failure (H := referencePlatform) sampleHost sampleInfo
           sampleSelection (userTyping brokenHome []) brokenFile
           (jsonc.Returned JNull
              [{| jsonc.error := 5; jsonc.offset := 8; jsonc.length := 1 |}])).
  - apply (bool_decide_unpack _). by vm_compute.
  - by vm_compute.
  - reflexivity.
  - by vm_compute.
Defined.

(** The same failure seen from the command: the user is shown the
    diagnostic and the file is left as it was. *)
Example broken_file_is_reported :
  filter (λ e, negb (touchesFiles e))
    (trace (createSnippet (H := referencePlatform) sampleHost (Some sampleEditor)
              (userTyping brokenHome [Some "Test"; Some "a, b"; None])).2)
  = [namePrompt; prefixPrompt; descriptionPrompt;
     ShowErrorMessage
       (dq ("Error creating snippet: Error: Error parsing existing snippets: "
            +:+ "Parsing errors detected:" +:+ nl +:+ "Line 2, Column 7: 5" +:+ nl
            +:+ "  'a' 1"));
     ConsoleError "Error details:"
       (dq ("Error: Error parsing existing snippets: "
            +:+ "Parsing errors detected:" +:+ nl +:+ "Line 2, Column 7: 5" +:+ nl
            +:+ "  'a' 1"))]
  ∧ files (fs (createSnippet (H := referencePlatform) sampleHost (Some sampleEditor)
                 (userTyping brokenHome [Some "Test"; Some "a, b"; None])).2) !! samplePath
    = Some brokenFile.
Proof. by vm_compute. Qed.

Lemma endToEndFile_serializes :
  JSON.stringify (JObj [("Test", newSnippet sampleInfo sampleSelection)]) = endToEndFile
  ∧ newSnippet sampleInfo sampleSelection = endToEndEntry.
Proof. by vm_compute. Qed.

(** C8. End to end: the selection is [line1], a newline, a tab, [line2],
    a backslash and [end]; the name is [Test], the prefixes input [a, b],
    the description is left out, the document is a Python document and the
    target file does not exist.  The command then writes the target file,
    whose content is the JSON object that binds [Test] to the entry with
    prefixes [a] and [b], the two escaped body lines and the description
    [Test]; and the directory of the file exists afterwards. *)
Theorem end_to_end_scenario `{Platform} (host : Host) (w : World)
    (d : option string) (rest : list (option string)) :
  jsonc_parse "{}" {| jsonc.allowTrailingComma := true |} = jsonc.Returned (JObj []) [] →
  answers w = Some "Test" :: Some "a, b" :: d :: rest →
  d = None ∨ d = Some "" →
  absentTarget (fs w) (snippetsPath host "python") →
  ∃ w',
    createSnippet host (Some sampleEditor) w = (Ok (), w')
    ∧ files (fs w') = <[snippetsPath host "python" := endToEndFile]> (files (fs w))
    ∧ path_dirname (snippetsPath host "python") ∈ dirs (fs w')
    ∧ endToEndFile = JSON.stringify (JObj [("Test", endToEndEntry)]).
Proof.
  intros Hparse Hans Hd Habsent.
  assert (Hcollect : collectSnippetInfo (document sampleEditor) w
                     = (Ok (Some sampleInfo), afterDescriptionPrompt w rest)).
  { rewrite (collectSnippetInfo_proceeds _ w "Test" "a, b" d rest Hans) by done.
    by destruct Hd as [-> | ->]. }
  destruct (saveSnippet_fresh host sampleInfo sampleSelection
              (afterDescriptionPrompt w rest) Hparse Habsent)
    as (w2 & Hsave & Hfiles & Hdir & _).
  destruct endToEndFile_serializes as [Hser Hentry].
  exists {| fs := fs w2; answers := answers w2;
            trace := trace w2
                     ++ [ShowInformationMessage
                           ("Snippet " +:+ chr DQUOTE +:+ "Test" +:+ chr DQUOTE
                            +:+ " added successfully!")] |}.
  split_and!.
  - rewrite (createSnippet_collected host sampleEditor w sampleInfo _ ltac:(done) Hcollect).
    unfold tryCatch, mbind, M_bind. simpl selectedText. rewrite Hsave. reflexivity.
  - simpl. rewrite Hfiles. simpl. by rewrite Hser.
  - exact Hdir.
  - by rewrite <- Hentry, <- Hser.
Qed.

Lemma end_to_end_scenario_witness :
  ∃ w',
    createSnippet (H := referencePlatform) sampleHost (Some sampleEditor)
      (userTyping emptyHome [Some "Test"; Some "a, b"; None]) = (Ok (), w')
    ∧ files (fs w')
      = <[snippetsPath (H := referencePlatform) sampleHost "python" := endToEndFile]>
          (files (fs (userTyping emptyHome [Some "Test"; Some "a, b"; None])))
    ∧ @path_dirname referencePlatform
        (snippetsPath (H := referencePlatform) sampleHost "python") ∈ dirs (fs w')
    ∧ endToEndFile = JSON.stringify (JObj [("Test", endToEndEntry)]).
Proof.
  apply (end_to_end_scenario (H := referencePlatform) sampleHost
           (userTyping emptyHome [Some "Test"; Some "a, b"; None]) None []).
  - reflexivity.
  - reflexivity.
  - by left.
  - unfold absentTarget. apply (bool_decide_unpack _). by vm_compute.
Defined.

(** The scenario on the reference platform, read off the result. *)
Example end_to_end_run :
  files (fs (createSnippet (H := referencePlatform) sampleHost (Some sampleEditor)
               (userTyping emptyHome [Some "Test"; Some "a, b"; None])).2) !! samplePath
  = Some endToEndFile
  ∧ bool_decide
      (sampleDir ∈ dirs (fs (createSnippet (H := referencePlatform) sampleHost
                               (Some sampleEditor)
                               (userTyping emptyHome [Some "Test"; Some "a, b"; None])).2))
    = true.
Proof. by vm_compute. Qed.

(** C9 as stated fails: an entry that the file already held with a string
    for prefix is written back to disk with that string, so the written
    file has an entry whose prefix field is serialized as a string. *)
Lemma string_prefix_is_written_back :
  files (fs (createSnippet (H := referencePlatform) sampleHost (Some sampleEditor)
               (userTyping populatedHome [Some "Test"; Some "foo"; None])).2) !! samplePath
  = Some carriedOverFile
  ∧ carriedOverFile
    = JSON.stringify
        (JObj [("a", sampleEntry); ("Test", newSnippet onePrefixInfo sampleSelection)])
  ∧ JSObject.get "prefix" (JSObject.ownProperties sampleEntry) = Some (JStr "x")
  ∧ JSString.includes (dq "'a': {" +:+ nl +:+ dq "    'prefix': 'x',") carriedOverFile
    = true.
Proof. by vm_compute. Qed.

(** ** Where the modelled parse mechanism reports its errors *)

Section ErrorOffsets.
Import jsoncDemo.

Lemma lexOk_emit content t r :
  okOffset content (at_ t) → lexOk content r → lexOk content (emitToken t r).
Proof. destruct r as [ts eof|]; simpl; [|done]. intros Ht [Hts Heof]. by split; [constructor|]. Qed.

Lemma get_past_end s : String.get (String.length s) s = None.
Proof. induction s as [|c s IH]; [done|]. exact IH. Qed.

Lemma get_app_here pre c s : String.get (String.length pre) (pre +:+ String c s) = Some c.
Proof. induction pre as [|d pre IH]; [done|]. exact IH. Qed.

Lemma slength_snoc pre c : String.length (pre +:+ chr c) = S (String.length pre).
Proof. induction pre as [|d pre IH]; [done|]. simpl. by rewrite <- IH. Qed.

Lemma slength_app_le pre s : String.length pre ≤ String.length (pre +:+ s).
Proof. induction pre as [|d pre IH]; simpl; lia. Qed.

Arguments lexOk : simpl never.

(** Tokens start, and lexical errors are reported, on characters that are
    not white space; the end of the tokens is the end of the text. *)
Lemma lex_offsets content :
  ∀ s pre m pos,
    content = pre +:+ s → String.length pre = pos → modeOk content m →
    lexOk content (lex m pos s).
Proof.
  induction s as [|c s IH]; intros pre m pos Hcontent Hpos Hm.
  - rewrite sapp_nil_r in Hcontent. subst pre pos.
    assert (Hend : okOffset content (String.length content)).
    { split; [done|]. by rewrite get_past_end. }
    destruct m; simpl; unfold lexOk; simpl in Hm; auto.
  - assert (Hnext : content = (pre +:+ chr c) +:+ s) by (by rewrite sapp_assoc).
    assert (Hlen : String.length (pre +:+ chr c) = S pos) by (by rewrite slength_snoc, Hpos).
    assert (Hstart : isBlank c = false → okOffset content pos).
    { intros Hc. split.
      - subst. apply slength_app_le.
      - subst. rewrite get_app_here. intros [= ->]. done. }
    destruct m; simpl in Hm |- *;
      repeat match goal with
             | |- context [if ?b then _ else _] => destruct b eqn:?
             | |- context [match punctuation c with _ => _ end] =>
                 destruct (punctuation c) eqn:?
             | |- context [match unescapeChar c with _ => _ end] =>
                 destruct (unescapeChar c) eqn:?
             | |- context [match hexValue c with _ => _ end] =>
                 destruct (hexValue c) eqn:?
             end;
      repeat (apply lexOk_emit; [simpl; by auto|]);
      first [ by (unfold lexOk; auto)
            | eapply IH; [exact Hnext|exact Hlen|simpl; by auto] ].
Qed.

Lemma failAt_ok {A : Type} content code eof ts :
  okOffset content eof → Forall (λ t, okOffset content (at_ t)) ts →
  parsedOk content (failAt (A := A) code eof ts).
Proof. intros Heof Hts. destruct ts as [|t ts]; simpl; [done|]. by apply Forall_cons in Hts as [? _]. Qed.

Ltac split_Forall :=
  repeat match goal with
         | H : Forall _ (_ :: _) |- _ => apply Forall_cons in H as [? ?]
         end.

Ltac solve_Forall := solve [repeat first [assumption | constructor]].

(** The parser reports an error at the offset of a token or at the end of
    the text, and leaves a suffix of its tokens. *)
Lemma parse_offsets content trailing eof :
  okOffset content eof →
  ∀ fuel,
    (∀ ts, Forall (λ t, okOffset content (at_ t)) ts →
           parsedOk content (parseValue trailing eof fuel ts))
    ∧ (∀ ts, Forall (λ t, okOffset content (at_ t)) ts →
             parsedOk content (parseElements trailing eof fuel ts))
    ∧ (∀ acc ts, Forall (λ t, okOffset content (at_ t)) ts →
                 parsedOk content (parseMembers trailing eof fuel acc ts)).
Proof.
  intros Heof. induction fuel as [|fuel (IHv & IHe & IHm)].
  { split_and!; intros; by apply failAt_ok. }
  split_and!; intros; simpl;
    repeat case_match; simplify_eq; split_Forall;
    repeat match goal with
           | H : parseValue ?tr _ _ ?X = _ |- _ =>
               let F := fresh in
               assert (F : parsedOk content (parseValue tr eof fuel X))
                 by (apply IHv; solve_Forall);
               rewrite H in F; simpl in F; clear H; split_Forall
           | H : parseElements ?tr _ _ ?X = _ |- _ =>
               let F := fresh in
               assert (F : parsedOk content (parseElements tr eof fuel X))
                 by (apply IHe; solve_Forall);
               rewrite H in F; simpl in F; clear H; split_Forall
           | H : parseMembers ?tr _ _ ?a ?X = _ |- _ =>
               let F := fresh in
               assert (F : parsedOk content (parseMembers tr eof fuel a X))
                 by (apply IHm; solve_Forall);
               rewrite H in F; simpl in F; clear H; split_Forall
           end;
    first [ done | by (simpl; auto) | apply failAt_ok; [done|solve_Forall]
          | simpl; solve_Forall ].
Qed.

(** Every error the modelled parse mechanism reports lies at a token or at
    the end of the text, never on a newline character. *)
Lemma parse_errors_atToken content options result errs :
  parse content options = jsonc.Returned result errs →
  Forall (atToken content) errs.
Proof.
  unfold parse. pose proof (lex_offsets content content "" Normal 0 eq_refl eq_refl I) as Hlex.
  destruct (lex Normal 0 content) as [ts eof|code o l].
  - destruct Hlex as [Hts Heof].
    destruct (parse_offsets content (jsonc.allowTrailingComma options) eof Heof
                (S (length ts))) as (Hv & _ & _).
    specialize (Hv ts Hts).
    destruct (parseValue _ _ _ ts) as [v [|t rest]|code o l];
      intros [= <- <-]; [constructor| |]; repeat constructor.
    + simpl in Hv. by apply Forall_cons in Hv as [[? ?] _].
    + simpl in Hv. by apply Forall_cons in Hv as [[? ?] _].
    + apply Hv.
    + apply Hv.
  - intros [= <- <-]. repeat constructor; apply Hlex.
Qed.

End ErrorOffsets.

(** C3. Failure handling has two tiers.  For every input on which the
    parse mechanism reports one or more errors, [parseSnippetsFile] gives
    no snippets and a diagnostic, never empty, made of the heading and,
    for each error in report order, the block [Line L, Column C: code]
    with the 1-based line and column of the error's offset, followed by
    the whole offending line.  This holds of any parse mechanism that
    reports its errors at tokens or at the end of the text, and the
    reference mechanism is one: for it no side condition is left.  When
    the parse mechanism throws instead, the exception is caught apart and
    the result is no snippets and the message [Fatal parsing error: ]
    followed by the description of what was thrown. *)
Theorem parseSnippetsFile_failure `{Platform} (content : string) :
  (∀ result errs,
     jsonc_parse content {| jsonc.allowTrailingComma := true |}
     = jsonc.Returned result errs →
     errs ≠ [] → Forall (atToken content) errs →
     ∃ blocks,
       parseSnippetsFile content
       = {| snippets := None;
            error := Some ("Parsing errors detected:" +:+ nl +:+ JSString.join nl blocks) |}
       ∧ blocks ≠ []
       ∧ Forall2 (λ e block, ∃ text,
                    isLineAt content (jsonc.offset e) text
                    ∧ block = errorBlock (position content (jsonc.offset e) 1 1).1
                                (position content (jsonc.offset e) 1 1).2
                                (jsonc.error e) text) errs blocks)
  ∧ (∀ result errs,
     jsoncDemo.parse content {| jsonc.allowTrailingComma := true |}
     = jsonc.Returned result errs →
     errs ≠ [] →
     ∃ blocks,
       parseSnippetsFile (H := referencePlatform) content
       = {| snippets := None;
            error := Some ("Parsing errors detected:" +:+ nl +:+ JSString.join nl blocks) |}
       ∧ blocks ≠ []
       ∧ Forall2 (λ e block, ∃ text,
                    isLineAt content (jsonc.offset e) text
                    ∧ block = errorBlock (position content (jsonc.offset e) 1 1).1
                                (position content (jsonc.offset e) 1 1).2
                                (jsonc.error e) text) errs blocks)
  ∧ (∀ e,
       jsonc_parse content {| jsonc.allowTrailingComma := true |} = jsonc.Threw e →
       parseSnippetsFile content
       = {| snippets := None; error := Some ("Fatal parsing error: " +:+ e) |}).
Proof.
  assert (Hblocks : ∀ (errs : list jsonc.ParseError) (blocks : list string)
                      (P : jsonc.ParseError → string → Prop),
             errs ≠ [] → Forall2 P errs blocks → blocks ≠ []).
  { intros errs blocks P Hne HF ->. by apply Forall2_nil_inv_r in HF. }
  split_and!.
  - intros result errs Hparse Hne Htok.
    destruct (parseSnippetsFile_reports content
                (jsonc.Returned result errs) Hparse Hne Htok) as (blocks & ? & ?).
    exists blocks. eauto.
  - intros result errs Hparse Hne.
    destruct (parseSnippetsFile_reports (H := referencePlatform) content
                (jsonc.Returned result errs) Hparse Hne) as (blocks & ? & ?).
    { by eapply parse_errors_atToken. }
    exists blocks. eauto.
  - intros e Hthrow.
    exact (parseSnippetsFile_reports content (jsonc.Threw e) Hthrow).
Qed.

Lemma parseSnippetsFile_failure_witness :
  (∃ blocks,
     parseSnippetsFile (H := referencePlatform) brokenFile
     = {| snippets := None;
          error := Some ("Parsing errors detected:" +:+ nl +:+ JSString.join nl blocks) |}
     ∧ blocks ≠ []
     ∧ Forall2 (λ e block, ∃ text,
                  isLineAt brokenFile (jsonc.offset e) text
                  ∧ block = errorBlock (position brokenFile (jsonc.offset e) 1 1).1
                              (position brokenFile (jsonc.offset e) 1 1).2
                              (jsonc.error e) text)
         [{| jsonc.error := 5; jsonc.offset := 8; jsonc.length := 1 |}] blocks)
  ∧ parseSnippetsFile (H := faultyPlatform) strictFile
    = {| snippets := None;
         error := Some "Fatal parsing error: RangeError: Maximum call stack size exceeded" |}.
Proof.
  split.
  - apply (proj1 (proj2 (parseSnippetsFile_failure (H := referencePlatform) brokenFile))
             JNull [{| jsonc.error := 5; jsonc.offset := 8; jsonc.length := 1 |}]);
      [reflexivity | done].
  - exact (proj2 (proj2 (parseSnippetsFile_failure (H := faultyPlatform) strictFile))
             "RangeError: Maximum call stack size exceeded" eq_refl).
Defined.

(** ** More on the text escaper *)
Section EscapeMore.

Lemma split_app_sep c a b :
  JSString.split c (a +:+ String c b) = JSString.split c a ++ JSString.split c b.
Proof.
  induction a as [|d a IH]; sapp.
  - simpl. by rewrite Ascii.eqb_refl.
  - simpl. destruct (Ascii.eqb d c); [by rewrite IH|].
    rewrite IH. destruct (JSString.split c a) as [|h t] eqn:E; [|done].
    by destruct (split_nonempty c a).
Qed.

Lemma split_replaceAll c d s :
  c ≠ d →
  JSString.split c (JSString.replaceAll d "" s)
  = map (JSString.replaceAll d "") (JSString.split c s).
Proof.
  intros Hcd. induction s as [|x s IH]; [done|].
  simpl. destruct (Ascii.eqb_spec x d) as [->|Hxd].
  - sapp. destruct (Ascii.eqb_spec d c) as [->|_]; [done|].
    rewrite IH. destruct (JSString.split c s) as [|h t] eqn:E.
    { by destruct (split_nonempty c s). }
    simpl. by rewrite Ascii.eqb_refl.
  - simpl. destruct (Ascii.eqb_spec x c) as [->|Hxc]; [by rewrite IH|].
    rewrite IH. destruct (JSString.split c s) as [|h t] eqn:E.
    { by destruct (split_nonempty c s). }
    simpl. by destruct (Ascii.eqb_spec x d).
Qed.

Lemma escapeChars_drops_CR s :
  escapeChars (JSString.replaceAll CR "" s) = escapeChars s.
Proof.
  induction s as [|x s IH]; [done|].
  simpl. destruct (Ascii.eqb_spec x CR) as [->|Hx]; sapp.
  - by rewrite IH.
  - simpl. by rewrite IH.
Qed.

Lemma replaceAll_idem c s :
  JSString.replaceAll c "" (JSString.replaceAll c "" s) = JSString.replaceAll c "" s.
Proof.
  induction s as [|x s IH]; [done|].
  simpl. destruct (Ascii.eqb_spec x c) as [->|Hx]; sapp; [done|].
  simpl. destruct (Ascii.eqb_spec x c); [done|]. by rewrite IH.
Qed.

End EscapeMore.

(** X1. Carriage returns do not count: escaping a text from which every
    carriage return was removed gives the same lines as escaping the text
    itself, so a selection with Windows line ends and the same selection
    with plain newlines yield the same snippet body. *)
Theorem escapeSnippetText_ignores_CR (T : string) :
  escapeSnippetText (JSString.replaceAll CR "" T) = escapeSnippetText T.
Proof.
  unfold escapeSnippetText.
  rewrite split_replaceAll by done. rewrite map_map.
  apply map_ext. intros l. rewrite !escapeLine_chars. apply escapeChars_drops_CR.
Qed.

(** X2. The escaper works line by line: the body of two texts joined by
    a newline is the body of the first followed by the body of the
    second. *)
Theorem escapeSnippetText_app (a b : string) :
  escapeSnippetText (a +:+ nl +:+ b) = escapeSnippetText a ++ escapeSnippetText b.
Proof.
  unfold escapeSnippetText, nl, chr. sapp.
  by rewrite split_app_sep, map_app.
Qed.

(** X3. Apart from carriage returns the escaper loses nothing: two
    texts with the same escaped lines are equal once their carriage
    returns are removed. *)
Theorem escapeSnippetText_injective (T1 T2 : string) :
  escapeSnippetText T1 = escapeSnippetText T2 →
  JSString.replaceAll CR "" T1 = JSString.replaceAll CR "" T2.
Proof.
  intros Heq.
  assert (Hlines : ∀ T, map unescape (escapeSnippetText T)
                        = JSString.split LF (JSString.replaceAll CR "" T)).
  { intros T. unfold escapeSnippetText. rewrite map_map.
    rewrite split_replaceAll by done. apply map_ext. intros l.
    rewrite escapeLine_chars. apply unescape_escapeChars. }
  rewrite <- (join_split LF (JSString.replaceAll CR "" T1)).
  rewrite <- (join_split LF (JSString.replaceAll CR "" T2)).
  by rewrite <- !Hlines, Heq.
Qed.

Lemma escapeSnippetText_injective_witness :
  JSString.replaceAll CR "" ("a" +:+ chr CR +:+ nl +:+ "b")
  = JSString.replaceAll CR "" ("a" +:+ nl +:+ "b" +:+ chr CR).
Proof. apply escapeSnippetText_injective. reflexivity. Defined.


(** ** More on the diagnostics *)
Section DiagnosticMore.

Lemma slice0_all n s : String.length s ≤ n → JSString.slice0 n s = s.
Proof.
  revert n. induction s as [|d s IH]; intros [|n] Hn; simpl in *; try done; try lia.
  rewrite IH; [done|lia].
Qed.

Lemma count_slice0_le c n s :
  JSString.count c (JSString.slice0 n s) ≤ JSString.count c s.
Proof.
  revert n. induction s as [|d s IH]; intros [|n]; simpl; try lia.
  specialize (IH n). lia.
Qed.

Lemma lastOccurrence_none c s :
  JSString.count c s = 0 → JSString.lastOccurrence c s = None.
Proof.
  induction s as [|d s IH]; simpl; [done|].
  destruct (Ascii.eqb d c); [done|]. intros Hc. by rewrite IH.
Qed.

Lemma split_one_line c s : JSString.count c s = 0 → JSString.split c s = [s].
Proof.
  induction s as [|d s IH]; simpl; [done|].
  destruct (Ascii.eqb d c); [done|]. intros Hc. by rewrite IH.
Qed.

Lemma lastOccurrence_here c n s :
  String.get n s = Some c →
  JSString.lastOccurrence c (JSString.slice0 (S n) s) = Some n.
Proof.
  revert n. induction s as [|d s IH]; intros n Hget; [by destruct n|].
  destruct n as [|n].
  - simpl in Hget. injection Hget as ->.
    simpl. destruct s; simpl; by rewrite Ascii.eqb_refl.
  - change (JSString.slice0 (S (S n)) (String d s))
      with (String d (JSString.slice0 (S n) s)).
    cbn [JSString.lastOccurrence]. by rewrite (IH n Hget).
Qed.

Lemma get_some_lt n s c : String.get n s = Some c → n < String.length s.
Proof.
  revert n. induction s as [|d s IH]; intros [|n]; simpl; try done; try lia.
  intros Hget. specialize (IH n Hget). lia.
Qed.

End DiagnosticMore.

(** X4. The block of an error always ends with a line of the content,
    whatever the offset of the error, even one past the end of the text:
    the line index computed from the offset is within the lines of the
    content, so the block never shows the word undefined.  An offset at
    or past the end of the text selects the last line. *)
Theorem formatParseError_line_defined (content : string) (e : jsonc.ParseError) :
  ∃ (l : nat) (c : Z) (text : string),
    formatParseError content e
    = "Line " +:+ pretty l +:+ ", Column " +:+ pretty c +:+ ": "
      +:+ pretty (jsonc.error e) +:+ nl +:+ text
    ∧ 1 ≤ l ≤ length (JSString.split LF content)
    ∧ JSString.split LF content !! (l - 1) = Some text
    ∧ (String.length content ≤ jsonc.offset e → l = length (JSString.split LF content)).
Proof.
  pose (k := JSString.count LF (JSString.slice0 (jsonc.offset e) content)).
  assert (Hk : k < length (JSString.split LF content)).
  { rewrite split_length. pose proof (count_slice0_le LF (jsonc.offset e) content). lia. }
  destruct (lookup_lt_is_Some_2 _ _ Hk) as [text Htext].
  eexists (k + 1), _, text. split_and!.
  - unfold formatParseError. rewrite split_length. simpl Nat.sub.
    rewrite Nat.sub_0_r. fold k. rewrite Htext. reflexivity.
  - lia.
  - lia.
  - by replace (k + 1 - 1) with k by lia.
  - intros Hlen. subst k. rewrite (slice0_all _ _ Hlen), split_length. lia.
Qed.

(** X5. On a content without newline every error is reported on line 1,
    at the column that is its offset plus one, followed by the whole
    content. *)
Theorem formatParseError_one_line (content : string) (e : jsonc.ParseError) :
  JSString.count LF content = 0 →
  formatParseError content e
  = errorBlock 1 (jsonc.offset e + 1) (jsonc.error e) content.
Proof.
  intros Hc.
  assert (Hs : JSString.count LF (JSString.slice0 (jsonc.offset e) content) = 0).
  { pose proof (count_slice0_le LF (jsonc.offset e) content). lia. }
  unfold formatParseError, errorBlock.
  rewrite split_length, Hs, (split_one_line _ _ Hc). simpl Nat.sub. simpl orUndefined.
  unfold JSString.lastIndexOf. rewrite lastOccurrence_none.
  2:{ pose proof (count_slice0_le LF (S (jsonc.offset e)) content). lia. }
  simpl Z.eqb. cbv iota.
  replace (Z.of_nat (jsonc.offset e) + 1)%Z with (Z.of_nat (jsonc.offset e + 1)) by lia.
  by rewrite pretty_Z_of_nat.
Qed.

Lemma formatParseError_one_line_witness :
  formatParseError "{,}" {| jsonc.error := 3; jsonc.offset := 1; jsonc.length := 1 |}
  = errorBlock 1 (1 + 1) 3 "{,}".
Proof. apply (formatParseError_one_line "{,}"). reflexivity. Defined.

(** X6. An error whose offset is that of a newline character is
    reported with column 0, on the line that the newline ends: the
    backward search for the last newline starts at the offset itself and
    finds it.  The position walker gives that offset a column of at
    least 1. *)
Theorem formatParseError_at_newline (content : string) (e : jsonc.ParseError) :
  String.get (jsonc.offset e) content = Some LF →
  ∃ text,
    isLineAt content (jsonc.offset e) text
    ∧ formatParseError content e
      = "Line " +:+ pretty (position content (jsonc.offset e) 1 1).1
        +:+ ", Column 0: " +:+ pretty (jsonc.error e) +:+ nl +:+ text
    ∧ 1 ≤ (position content (jsonc.offset e) 1 1).2.
Proof.
  intros Hget. pose proof (get_some_lt _ _ _ Hget) as Hlt.
  destruct (line_at_offset content (jsonc.offset e) ltac:(lia))
    as (before & line & after & Heq & Hl & Hc & Hb & Ha & Hlen & Hcnt).
  exists line. split; [by exists before, after|]. split.
  - unfold formatParseError.
    rewrite split_length. simpl Nat.sub. rewrite Nat.sub_0_r, Hl. simpl orUndefined.
    rewrite position_line.
    unfold JSString.lastIndexOf. rewrite (lastOccurrence_here _ _ _ Hget).
    destruct (Z.eqb_spec (Z.of_nat (jsonc.offset e)) (-1)) as [?|_]; [lia|].
    replace (Z.of_nat (jsonc.offset e) - Z.of_nat (jsonc.offset e) - 1 + 1)%Z
      with 0%Z by lia.
    replace (JSString.count LF (JSString.slice0 (jsonc.offset e) content) + 1)
      with (1 + JSString.count LF (JSString.slice0 (jsonc.offset e) content)) by lia.
    reflexivity.
  - rewrite position_column.
    destruct (JSString.lastOccurrence LF (JSString.slice0 (jsonc.offset e) content))
      as [i|] eqn:Hlast; [|lia].
    apply lastOccurrence_lt in Hlast. lia.
Qed.

Lemma formatParseError_at_newline_witness :
  ∃ text,
    isLineAt ("ab" +:+ nl +:+ "c") 2 text
    ∧ formatParseError ("ab" +:+ nl +:+ "c")
        {| jsonc.error := 1; jsonc.offset := 2; jsonc.length := 1 |}
      = "Line " +:+ pretty (position ("ab" +:+ nl +:+ "c") 2 1 1).1
        +:+ ", Column 0: " +:+ pretty 1 +:+ nl +:+ text
    ∧ 1 ≤ (position ("ab" +:+ nl +:+ "c") 2 1 1).2.
Proof.
  apply (formatParseError_at_newline ("ab" +:+ nl +:+ "c")
           {| jsonc.error := 1; jsonc.offset := 2; jsonc.length := 1 |}).
  reflexivity.
Defined.


(** ** Prefixes and language resolution *)
Section TrimFacts.

Lemma trimEnd_idem s : JSString.trimEnd (JSString.trimEnd s) = JSString.trimEnd s.
Proof.
  induction s as [|d s IH]; [done|].
  cbn [JSString.trimEnd]. destruct (JSString.trimEnd s) as [|x t] eqn:E.
  - destruct (JSString.isWhiteSpace d) eqn:Hd; [done|].
    cbn [JSString.trimEnd]. by rewrite Hd.
  - cbn [JSString.trimEnd] in IH |- *. cbn [JSString.trimEnd]. by rewrite IH.
Qed.

Lemma trimEnd_head d s :
  JSString.isWhiteSpace d = false →
  ∃ u, JSString.trimEnd (String d s) = String d u.
Proof.
  intros Hd. cbn [JSString.trimEnd]. rewrite Hd.
  destruct (JSString.trimEnd s); eauto.
Qed.

Lemma trimStart_head s :
  JSString.trimStart s = ""
  ∨ ∃ d u, JSString.trimStart s = String d u ∧ JSString.isWhiteSpace d = false.
Proof.
  induction s as [|d s IH]; [by left|].
  simpl. destruct (JSString.isWhiteSpace d) eqn:Hd; [done|]. right. eauto.
Qed.

Lemma trim_idem s : JSString.trim (JSString.trim s) = JSString.trim s.
Proof.
  unfold JSString.trim.
  destruct (trimStart_head s) as [->|(d & u & -> & Hd)]; [done|].
  destruct (trimEnd_head d u Hd) as [v Hv]. rewrite Hv.
  cbn [JSString.trimStart]. rewrite Hd, <- Hv. apply trimEnd_idem.
Qed.

Lemma count_trimStart_le c s :
  JSString.count c (JSString.trimStart s) ≤ JSString.count c s.
Proof.
  induction s as [|d s IH]; simpl; [done|].
  destruct (JSString.isWhiteSpace d); simpl; lia.
Qed.

Lemma count_trimEnd_le c s :
  JSString.count c (JSString.trimEnd s) ≤ JSString.count c s.
Proof.
  induction s as [|d s IH]; [done|].
  cbn [JSString.trimEnd]. destruct (JSString.trimEnd s) as [|x t].
  - destruct (JSString.isWhiteSpace d); simpl in *; lia.
  - simpl in *. lia.
Qed.

Lemma count_trim_le c s : JSString.count c (JSString.trim s) ≤ JSString.count c s.
Proof.
  unfold JSString.trim.
  pose proof (count_trimEnd_le c (JSString.trimStart s)).
  pose proof (count_trimStart_le c s). lia.
Qed.

Lemma trimEnd_blank s :
  JSString.trimEnd s = "" ↔ forallb JSString.isWhiteSpace (String.list_ascii_of_string s) = true.
Proof.
  induction s as [|d s IH]; [done|].
  cbn [JSString.trimEnd String.list_ascii_of_string forallb].
  destruct (JSString.trimEnd s) as [|x t].
  - destruct (JSString.isWhiteSpace d); simpl; [tauto|]. split; [done|done].
  - split; [done|]. intros [_ Hs]%andb_true_iff. by apply IH in Hs.
Qed.

Lemma trim_blank s :
  JSString.trim s = "" ↔ forallb JSString.isWhiteSpace (String.list_ascii_of_string s) = true.
Proof.
  unfold JSString.trim. induction s as [|d s IH]; [done|].
  cbn [JSString.trimStart String.list_ascii_of_string forallb].
  destruct (JSString.isWhiteSpace d) eqn:Hd; [done|].
  simpl andb. split; [|done].
  destruct (trimEnd_head d s Hd) as [u ->]. done.
Qed.

End TrimFacts.


Section PrefixBlank.

Lemma filter_nonempty_nil (l : list string) :
  filter (λ p, p ≠ "") l = [] ↔ Forall (λ p, p = "") l.
Proof.
  induction l as [|x l IH]; [by split; [constructor|]|].
  rewrite filter_cons. destruct (decide (x ≠ "")) as [Hx|Hx].
  - split; [done|]. by intros [? _]%Forall_cons.
  - rewrite IH, Forall_cons. apply dec_stable in Hx. tauto.
Qed.

Lemma split_blank s :
  Forall (λ p, forallb JSString.isWhiteSpace (String.list_ascii_of_string p) = true)
    (JSString.split "," s)
  ↔ blankPrefixes s = true.
Proof.
  induction s as [|d s IH]; [by split; [|repeat constructor]|].
  cbn [JSString.split blankPrefixes].
  destruct (Ascii.eqb_spec d ",") as [->|Hd].
  - rewrite Forall_cons, IH. simpl. tauto.
  - destruct (JSString.split "," s) as [|h t] eqn:E.
    { by destruct (split_nonempty "," s). }
    rewrite Forall_cons in IH. rewrite Forall_cons.
    cbn [String.list_ascii_of_string forallb].
    rewrite !andb_true_iff, <- IH. simpl. tauto.
Qed.

End PrefixBlank.

(** X11. The list of prefixes is empty exactly when the prefix input is
    made of commas and white space only. *)
Theorem splitPrefixes_empty (prefixInput : string) :
  splitPrefixes prefixInput = [] ↔ blankPrefixes prefixInput = true.
Proof.
  unfold splitPrefixes. rewrite filter_nonempty_nil, Forall_fmap, <- split_blank.
  apply Forall_iff. intros p. simpl. apply trim_blank.
Qed.

(** X12. Splitting prefixes distributes over a comma: the prefixes of
    two inputs joined by a comma are those of the first followed by those
    of the second.  Order is kept and nothing is merged. *)
Theorem splitPrefixes_app (a b : string) :
  splitPrefixes (a +:+ "," +:+ b) = splitPrefixes a ++ splitPrefixes b.
Proof.
  unfold splitPrefixes. rewrite sapp_cons, sapp_nil_l.
  by rewrite split_app_sep, map_app, filter_app.
Qed.

Section LanguageFacts.

Lemma lowerChar_idem c : JSString.lowerChar (JSString.lowerChar c) = JSString.lowerChar c.
Proof. destruct c as [[] [] [] [] [] [] [] []]; reflexivity. Qed.

Lemma toLowerCase_idem s :
  JSString.toLowerCase (JSString.toLowerCase s) = JSString.toLowerCase s.
Proof. induction s as [|c s IH]; [done|]. simpl. by rewrite lowerChar_idem, IH. Qed.

Lemma toLowerCase_nonempty s : s ≠ "" → JSString.toLowerCase s ≠ "".
Proof. by destruct s. Qed.

Lemma determineLanguage_known doc w :
  languageId doc ≠ "" → languageId doc ≠ "plaintext" →
  determineLanguage doc w = (Ok (Some (languageId doc)), w).
Proof.
  intros H1 H2. unfold determineLanguage.
  rewrite (truthy_ne _ H1). by rewrite (proj2 (String.eqb_neq _ _) H2).
Qed.

Lemma determineLanguage_asks doc w :
  languageId doc = "" ∨ languageId doc = "plaintext" →
  determineLanguage doc w
  = (Ok (JSString.toLowerCase <$> reply (head (answers w))),
     {| fs := fs w; answers := tail (answers w); trace := trace w ++ [languagePrompt] |}).
Proof.
  intros Hid. unfold determineLanguage, languagePrompt.
  assert (JSString.truthy (languageId doc)
          && negb (String.eqb (languageId doc) "plaintext") = false) as ->.
  { by destruct Hid as [->| ->]. }
  assert ((if negb (String.eqb (languageId doc) "plaintext") then languageId doc else "")
          = "") as ->.
  { by destruct Hid as [->| ->]. }
  unfold showInputBox, mbind, M_bind, mret, M_ret. simpl.
  destruct (answers w) as [|[s|] rest]; simpl; try done.
  by destruct (JSString.truthy s).
Qed.

End LanguageFacts.

(** X8. Language resolution.  When the document has a language that is
    neither empty nor [plaintext], it is returned as it is and nothing is
    asked.  Otherwise one input box is shown, whose initial value is
    always the empty string, and the reply is returned in lower case; a
    dismissed box or an empty reply gives no language. *)
Theorem determineLanguage_spec (doc : TextDocument) (w : World) :
  determineLanguage doc w
  = if bool_decide (languageId doc = "" ∨ languageId doc = "plaintext")
    then (Ok (JSString.toLowerCase <$> reply (head (answers w))),
          {| fs := fs w; answers := tail (answers w);
             trace := trace w ++ [languagePrompt] |})
    else (Ok (Some (languageId doc)), w).
Proof.
  case_bool_decide as Hid.
  - by apply determineLanguage_asks.
  - apply determineLanguage_known; intros ?; apply Hid; auto.
Qed.


(** ** The interaction flow as a whole *)
Section FlowFacts.

(** What a successful run of the flow has read. *)
Lemma collectSnippetInfo_inv doc w info w' :
  collectSnippetInfo doc w = (Ok (Some info), w') →
  ∃ snippetName prefixInput rest l,
    answers w = Some snippetName :: Some prefixInput :: rest
    ∧ snippetName ≠ "" ∧ prefixInput ≠ ""
    ∧ determineLanguage doc (afterDescriptionPrompt w (tail rest)) = (Ok (Some l), w')
    ∧ info = {| name := snippetName; prefixes := splitPrefixes prefixInput;
                description := default snippetName (reply (head rest));
                language := l |}.
Proof.
  destruct w as [f a t]. intros Hrun.
  destruct a as [|[nm|] a]; [done| |done].
  destruct nm as [|c nm]; [done|].
  destruct a as [|[p|] a]; [done| |done].
  destruct p as [|c' p]; [done|].
  exists (String c nm), (String c' p), a.
  revert Hrun. run_flow. rewrite <- !app_assoc. simpl.
  destruct (determineLanguage doc _) as [[[l|]|e] w1] eqn:Hl; [|done..].
  intros [= <- <-]. exists l. split_and!; try done.
  f_equal. destruct a as [|[[|c'' d]|] a]; done.
Qed.

End FlowFacts.

Section FlowSteps.

(** The flow shows between one and four boxes, in a fixed order, consumes
    one reply for each, and does nothing else. *)
Lemma collectSnippetInfo_steps (doc : TextDocument) (w : World) :
  ∃ r n,
    collectSnippetInfo doc w
    = (Ok r, {| fs := fs w; answers := drop n (answers w);
                trace := trace w ++ take n [namePrompt; prefixPrompt; descriptionPrompt;
                                            languagePrompt] |})
    ∧ 1 ≤ n ≤ 4
    ∧ (is_Some r → 3 ≤ n)
    ∧ (n = 4 ↔ 3 ≤ n ∧ (languageId doc = "" ∨ languageId doc = "plaintext")).
Proof.
  destruct w as [f a t].
  destruct a as [|[nm|] a];
    [eexists None, 1; run_flow; split_and!; [done|lia..|by intros [??]|lia] |
     |eexists None, 1; run_flow; split_and!; [done|lia..|by intros [??]|lia]].
  destruct nm as [|c nm];
    [eexists None, 1; run_flow; split_and!; [done|lia..|by intros [??]|lia]|].
  destruct a as [|[p|] a];
    [eexists None, 2; run_flow; rewrite <- !app_assoc; split_and!;
       [done|lia..|by intros [??]|lia] |
     |eexists None, 2; run_flow; rewrite <- !app_assoc; split_and!;
       [done|lia..|by intros [??]|lia]].
  destruct p as [|c' p];
    [eexists None, 2; run_flow; rewrite <- !app_assoc; split_and!;
       [done|lia..|by intros [??]|lia]|].
  run_flow. rewrite <- !app_assoc. simpl.
  destruct (decide (languageId doc = "" ∨ languageId doc = "plaintext")) as [Hid|Hid].
  - rewrite (determineLanguage_asks _ _ Hid). simpl.
    destruct (JSString.toLowerCase <$> _) as [l|];
      eexists _, 4; rewrite <- !app_assoc; simpl;
      (split_and!; [|lia..|intros _; lia|split; [intros _; split; [lia|done]|done]]);
      destruct a as [|d [|l' a]]; reflexivity.
  - rewrite determineLanguage_known by (intros ?; apply Hid; auto).
    eexists _, 3. split_and!; [|lia..|intros _; lia|split; [lia|tauto]].
    destruct a as [|d a]; reflexivity.
Qed.

End FlowSteps.

(** X9. The interaction flow only asks: it always returns, it leaves the
    file system as it is, it shows between one and four input boxes, the
    first ones of name, prefixes, description and language in that order,
    and it consumes one reply for each.  Information is returned only
    once the description box was shown, and the language box is shown
    exactly when the first three were and the document has no language
    or [plaintext]. *)
Theorem collectSnippetInfo_effects (doc : TextDocument) (w : World) :
  ∃ r w' prompts,
    collectSnippetInfo doc w = (Ok r, w')
    ∧ fs w' = fs w
    ∧ trace w' = trace w ++ prompts
    ∧ answers w' = drop (length prompts) (answers w)
    ∧ prompts ≠ []
    ∧ prompts `prefix_of` [namePrompt; prefixPrompt; descriptionPrompt; languagePrompt]
    ∧ (is_Some r → 3 ≤ length prompts)
    ∧ (languagePrompt ∈ prompts ↔
       3 ≤ length prompts ∧ (languageId doc = "" ∨ languageId doc = "plaintext")).
Proof.
  destruct (collectSnippetInfo_steps doc w) as (r & n & Hrun & Hn & Hsome & Hlang).
  eexists r, _, _. split; [exact Hrun|]. simpl.
  assert (Hlen : length (take n [namePrompt; prefixPrompt; descriptionPrompt;
                                 languagePrompt]) = n).
  { rewrite length_take. simpl. lia. }
  rewrite Hlen. split_and!; try done.
  - intros Hnil. rewrite Hnil in Hlen. simpl in Hlen. lia.
  - apply prefix_take.
  - rewrite <- Hlang. clear -Hn.
    destruct n as [|[|[|[|[|n]]]]]; simpl; try lia.
    all: split; [|try done; try lia].
    all: try (intros Hin; repeat (apply elem_of_cons in Hin as [Hin|Hin]; [done|]);
              by apply elem_of_nil in Hin).
    all: intros _; do 3 (apply elem_of_cons; right); apply elem_of_cons; by left.
Qed.

(** X10. What the flow returns is never blank: the name, the description
    and the language are not empty, and every prefix is not empty, has no
    white space at either end and holds no comma. *)
Theorem collectSnippetInfo_result (doc : TextDocument) (w w' : World) (info : SnippetInfo) :
  collectSnippetInfo doc w = (Ok (Some info), w') →
  name info ≠ "" ∧ description info ≠ "" ∧ language info ≠ ""
  ∧ Forall (λ p, p ≠ "" ∧ JSString.trim p = p ∧ JSString.count "," p = 0) (prefixes info).
Proof.
  intros (nm & p & rest & l & Hans & Hnm & Hp & Hl & ->)%collectSnippetInfo_inv.
  simpl. split_and!.
  - done.
  - destruct (head rest) as [[[|c d]|]|]; done.
  - destruct (decide (languageId doc = "" ∨ languageId doc = "plaintext")) as [Hid|Hid].
    + rewrite (determineLanguage_asks _ _ Hid) in Hl.
      injection Hl as Hl _. simpl in Hl.
      destruct (head rest) as [|]; simpl in Hl.
      all: destruct (tail rest) as [|[[|c s]|] ?]; simpl in Hl; try done.
      all: by injection Hl as <-.
    + rewrite determineLanguage_known in Hl by (intros ?; apply Hid; auto).
      injection Hl as <- _. intros ?. apply Hid. by left.
  - unfold splitPrefixes. apply Forall_forall. intros x Hx.
    apply list_elem_of_filter in Hx as [Hne Hx].
    apply list_elem_of_fmap in Hx as (q & -> & Hq).
    split_and!; [done|apply trim_idem|].
    pose proof (split_no_sep "," p) as Hsep.
    rewrite Forall_forall in Hsep. specialize (Hsep q Hq).
    pose proof (count_trim_le "," q). lia.
Qed.

Lemma collectSnippetInfo_result_witness :
  name {| name := "Test"; prefixes := ["a"; "b c"]; description := "Test";
          language := "lua" |} ≠ ""
  ∧ description {| name := "Test"; prefixes := ["a"; "b c"]; description := "Test";
                   language := "lua" |} ≠ ""
  ∧ language {| name := "Test"; prefixes := ["a"; "b c"]; description := "Test";
                language := "lua" |} ≠ ""
  ∧ Forall (λ p, p ≠ "" ∧ JSString.trim p = p ∧ JSString.count "," p = 0)
      (prefixes {| name := "Test"; prefixes := ["a"; "b c"]; description := "Test";
                   language := "lua" |}).
Proof.
  apply (collectSnippetInfo_result {| languageId := "plaintext" |}
           (userTyping emptyHome [Some "Test"; Some " a ,, b c,"; None; Some "Lua"])
           {| fs := emptyHome; answers := [];
              trace := [namePrompt; prefixPrompt; descriptionPrompt; languagePrompt] |}).
  reflexivity.
Defined.


(** ** What a save does to the file system *)
Section SaveMore.
Context `{Platform}.

(** What every run of [saveSnippet] does, whether it returns or throws:
    the file system is only consulted, [writeFileSync] is called at most
    once, last, and on the snippet file, and as long as it is not called
    every file keeps its content. *)
Lemma saveSnippet_outcome host info text w r w' :
  saveSnippet host info text w = (r, w') →
  answers w' = answers w
  ∧ dirs (fs w) ⊆ dirs (fs w')
  ∧ (∃ evs,
       trace w' = trace w ++ evs
       ∧ Forall (λ e, touchesFiles e = true) evs
       ∧ (filter (λ e, isWrite e = true) evs = []
          ∨ ∃ before data,
              evs = before ++ [WriteFileSync (snippetsPath host (language info)) data]
              ∧ filter (λ e, isWrite e = true) before = [])
       ∧ (filter (λ e, isWrite e = true) evs = [] → files (fs w') = files (fs w)))
  ∧ match r with
    | Throw _ => True
    | Ok _ =>
        files (fs w')
        = <[snippetsPath host (language info)
            := JSON.stringify
                 (JObj (mergeSnippet
                          (snippets (parseSnippetsFile
                                       (existingContent (fs w)
                                          (snippetsPath host (language info)))))
                          (name info) (newSnippet info text)))]> (files (fs w))
        ∧ path_dirname (snippetsPath host (language info)) ∈ dirs (fs w')
        ∧ snippetsPath host (language info) ∉ dirs (fs w')
    end.
Proof.
  destruct w as [[fl ds] a t]. unfold existingContent. run_save.
  repeat case_match; intros; simplify_eq; simpl in *.
  all: repeat match goal with
       | Hb : negb _ = true |- _ => apply negb_true_iff in Hb
       | Hb : negb _ = false |- _ => apply negb_false_iff in Hb
       | Hb : _ || _ = false |- _ => apply orb_false_iff in Hb as [? ?]
       | Hb : bool_decide _ = false |- _ => apply bool_decide_eq_false_1 in Hb
       | Hb : bool_decide _ = true |- _ => apply bool_decide_eq_true_1 in Hb
       | Hb : ¬ is_Some _ |- _ => apply eq_None_not_Some in Hb
       end.
  all: split_and!; try done; try assumption; try apply union_subseteq_l.
  all: try (eexists; split; [by rewrite <- ?app_assoc|];
            split; [by repeat constructor|];
            split; [first [by left
                          |right; first [by eexists [], _
                                        |by eexists [_], _
                                        |by eexists [_; _], _
                                        |by eexists [_; _; _], _
                                        |by eexists [_; _; _; _], _]]
                   |by intros]).
  all: match goal with Hl : _ !! snippetsPath _ _ = _ |- _ => by rewrite Hl end.
Qed.

End SaveMore.

(** X13. A save that throws before it calls [writeFileSync] has changed
    the content of no file.  [writeFileSync] is called at most once, as
    the last call on the file system, and on the snippet file of the
    language: every failure of directory creation, of reading or of
    parsing happens before any file is written.  A failed save removes
    no directory and consumes no reply of the user. *)
Theorem saveSnippet_failure_before_write `{Platform} (host : Host) (info : SnippetInfo)
    (text : string) (w w' : World) (message : string) :
  saveSnippet host info text w = (Throw message, w') →
  ∃ evs,
    trace w' = trace w ++ evs
    ∧ (filter (λ e, isWrite e = true) evs = []
       ∨ ∃ before data,
           evs = before ++ [WriteFileSync (snippetsPath host (language info)) data]
           ∧ filter (λ e, isWrite e = true) before = [])
    ∧ (filter (λ e, isWrite e = true) evs = [] → files (fs w') = files (fs w))
    ∧ dirs (fs w) ⊆ dirs (fs w')
    ∧ answers w' = answers w.
Proof.
  intros Hrun.
  destruct (saveSnippet_outcome _ _ _ _ _ _ Hrun)
    as (Hans & Hdirs & (evs & Htrace & _ & Hlast & Hkeep) & _).
  exists evs. by split_and!.
Qed.

Lemma saveSnippet_failure_before_write_witness :
  ∃ evs,
    trace {| fs := blockedHome; answers := [];
             trace := [ExistsSync sampleDir; MkdirSync sampleDir] |}
    = trace (userTyping blockedHome []) ++ evs
    ∧ (filter (λ e, isWrite e = true) evs = []
       ∨ ∃ before data,
           evs = before ++ [WriteFileSync
                              (snippetsPath (H := referencePlatform) sampleHost
                                 (language sampleInfo)) data]
           ∧ filter (λ e, isWrite e = true) before = [])
    ∧ (filter (λ e, isWrite e = true) evs = []
       → files (fs {| fs := blockedHome; answers := [];
                      trace := [ExistsSync sampleDir; MkdirSync sampleDir] |})
         = files (fs (userTyping blockedHome [])))
    ∧ dirs (fs (userTyping blockedHome []))
      ⊆ dirs (fs {| fs := blockedHome; answers := [];
                    trace := [ExistsSync sampleDir; MkdirSync sampleDir] |})
    ∧ answers {| fs := blockedHome; answers := [];
                 trace := [ExistsSync sampleDir; MkdirSync sampleDir] |}
      = answers (userTyping blockedHome []).
Proof.
  apply (saveSnippet_failure_before_write (H := referencePlatform) sampleHost sampleInfo
           sampleSelection _ _
           "ENOTDIR: not a directory, mkdir '/home/u/Code/User/snippets'").
  by vm_compute.
Defined.

(** X14. A save that returns has changed one file only, the snippet
    file of the language, which now holds the merge of the new entry into
    what the file held before, or into the empty mapping when it did not
    exist.  Every other file is as before, no directory is removed and
    the directory of the snippet file exists. *)
Theorem saveSnippet_success_frame `{Platform} (host : Host) (info : SnippetInfo)
    (text : string) (w w' : World) :
  saveSnippet host info text w = (Ok (), w') →
  files (fs w')
  = <[snippetsPath host (language info)
      := JSON.stringify
           (JObj (mergeSnippet
                    (snippets (parseSnippetsFile
                                 (existingContent (fs w)
                                    (snippetsPath host (language info)))))
                    (name info) (newSnippet info text)))]> (files (fs w))
  ∧ (∀ other, other ≠ snippetsPath host (language info) →
       files (fs w') !! other = files (fs w) !! other)
  ∧ dirs (fs w) ⊆ dirs (fs w')
  ∧ path_dirname (snippetsPath host (language info)) ∈ dirs (fs w')
  ∧ answers w' = answers w.
Proof.
  intros Hrun.
  destruct (saveSnippet_outcome _ _ _ _ _ _ Hrun) as (? & ? & _ & Hfiles & ? & _).
  split_and!; try done.
  intros other Hother. rewrite Hfiles. by apply lookup_insert_ne.
Qed.

Lemma saveSnippet_success_frame_witness :
  files (fs (saveSnippet (H := referencePlatform) sampleHost sampleInfo sampleSelection
               (userTyping populatedHome [])).2)
  = <[snippetsPath (H := referencePlatform) sampleHost (language sampleInfo)
      := JSON.stringify
           (JObj (mergeSnippet
                    (snippets (parseSnippetsFile (H := referencePlatform)
                                 (existingContent (fs (userTyping populatedHome []))
                                    (snippetsPath (H := referencePlatform) sampleHost
                                       (language sampleInfo)))))
                    (name sampleInfo) (newSnippet sampleInfo sampleSelection)))]>
      (files (fs (userTyping populatedHome [])))
  ∧ (∀ other,
       other ≠ snippetsPath (H := referencePlatform) sampleHost (language sampleInfo) →
       files (fs (saveSnippet (H := referencePlatform) sampleHost sampleInfo sampleSelection
                    (userTyping populatedHome [])).2) !! other
       = files (fs (userTyping populatedHome [])) !! other)
  ∧ dirs (fs (userTyping populatedHome []))
    ⊆ dirs (fs (saveSnippet (H := referencePlatform) sampleHost sampleInfo sampleSelection
                  (userTyping populatedHome [])).2)
  ∧ @path_dirname referencePlatform
      (snippetsPath (H := referencePlatform) sampleHost (language sampleInfo))
    ∈ dirs (fs (saveSnippet (H := referencePlatform) sampleHost sampleInfo sampleSelection
                  (userTyping populatedHome [])).2)
  ∧ answers (saveSnippet (H := referencePlatform) sampleHost sampleInfo sampleSelection
               (userTyping populatedHome [])).2
    = answers (userTyping populatedHome []).
Proof.
  apply (saveSnippet_success_frame (H := referencePlatform) sampleHost sampleInfo
           sampleSelection (userTyping populatedHome [])).
  by vm_compute.
Defined.


(** ** Saving into an existing file, and saving twice *)
Section SaveExisting.
Context `{Platform}.



End SaveExisting.






(** ** Well-formed mappings *)
Section MergeMore.

Lemma arrayIndex_inj a b i :
  JSObject.arrayIndex a = Some i → JSObject.arrayIndex b = Some i → a = b.
Proof.
  unfold JSObject.arrayIndex. intros Ha Hb.
  destruct a as [|ca a]; [done|]. destruct b as [|cb b]; [done|].
  destruct (JSObject.digitsValue 0 (String ca a)) as [n|]; [|done].
  destruct (JSObject.digitsValue 0 (String cb b)) as [m|]; [|done].
  destruct (String.eqb_spec (pretty n) (String ca a)) as [Hn|]; [|done].
  destruct (String.eqb_spec (pretty m) (String cb b)) as [Hm|]; [|done].
  simpl in Ha, Hb.
  destruct (n <? 4294967295)%N; [|done]. destruct (m <? 4294967295)%N; [|done].
  simplify_eq. congruence.
Qed.

Lemma precedes_after_index a b c i j :
  JSObject.arrayIndex a = Some i → JSObject.arrayIndex b = Some j → (i < j)%N →
  JSObject.precedes b c → JSObject.precedes a c.
Proof.
  unfold JSObject.precedes. intros -> ->. destruct (JSObject.arrayIndex c); [lia|done].
Qed.

Lemma insertIndex_sorted i n e o :
  JSObject.arrayIndex n = Some i →
  n ∉ JSObject.keys o →
  StronglySorted JSObject.precedes (JSObject.keys o) →
  StronglySorted JSObject.precedes (JSObject.keys (JSObject.insertIndex i n e o)).
Proof.
  intros Hn. induction o as [|[k v] o IH]; intros Hnot Hsorted.
  { simpl. repeat constructor. }
  simpl in Hnot. apply not_elem_of_cons in Hnot as [Hnk Hnot].
  simpl in Hsorted. apply StronglySorted_inv in Hsorted as [Hsorted Hall].
  cbn [JSObject.insertIndex].
  destruct (JSObject.arrayIndex k) as [j|] eqn:Hk.
  - destruct (N.ltb_spec j i) as [Hlt|Hge].
    + simpl. constructor; [by apply IH|].
      destruct (insertIndex_middle i n e o) as (l1 & l2 & Ho & ->).
      rewrite keys_app. simpl. rewrite Ho, keys_app in Hall.
      apply Forall_app in Hall as [H1 H2].
      apply Forall_app. split; [done|]. constructor; [|done].
      unfold JSObject.precedes. by rewrite Hk, Hn.
    + assert (i ≠ j) by (intros ->; by destruct Hnk; eapply arrayIndex_inj).
      simpl. constructor; [by constructor|].
      constructor.
      * unfold JSObject.precedes. rewrite Hn, Hk. lia.
      * eapply Forall_impl; [exact Hall|]. intros c Hc.
        eapply (precedes_after_index n k c i j); try done. lia.
  - simpl. constructor; [by constructor|].
    constructor.
    + unfold JSObject.precedes. by rewrite Hn, Hk.
    + eapply Forall_impl; [exact Hall|]. intros c. unfold JSObject.precedes.
      rewrite Hk, Hn. by destruct (JSObject.arrayIndex c).
Qed.

Lemma createDataProperty_wellFormed n e o :
  JSObject.wellFormed o → JSObject.wellFormed (JSObject.createDataProperty n e o).
Proof.
  intros [Hnd Hsorted].
  destruct (createDataProperty_cases n e o) as [[Hin ->]|[Hnot (l1 & l2 & Ho & Hc)]].
  { unfold JSObject.wellFormed. by rewrite keys_replaceValue. }
  split.
  - rewrite Hc, keys_app. simpl. rewrite Ho, keys_app in Hnd, Hnot.
    apply NoDup_app in Hnd as (H1 & H2 & H3).
    apply not_elem_of_app in Hnot as [Hn1 Hn2].
    apply NoDup_app. split_and!; [done| |by constructor].
    intros x Hx1 [->|Hx2]%elem_of_cons; [done|by eapply H2].
  - unfold JSObject.createDataProperty.
    rewrite (proj2 (has_false n o) Hnot).
    destruct (JSObject.arrayIndex n) as [i|] eqn:Hn.
    + by apply insertIndex_sorted.
    + rewrite keys_app. simpl.
      induction Hsorted as [|a l Hs IHs Hall]; simpl.
      { repeat constructor. }
      constructor.
      * apply IHs; [by apply NoDup_cons in Hnd as [_ ?]|].
        by apply not_elem_of_cons in Hnot as [_ ?].
      * apply Forall_app. split; [done|]. constructor; [|done].
        unfold JSObject.precedes. rewrite Hn. by destruct (JSObject.arrayIndex a).
Qed.

End MergeMore.

(** X17. Merging keeps a mapping well formed: when the existing mapping
    has no key twice and lists its index keys first in ascending order,
    so does the merge with the new entry. *)
Theorem mergeSnippet_wellFormed (M : list (string * json)) (n : string) (e : json) :
  JSObject.wellFormed M → JSObject.wellFormed (mergeSnippet (Some (JObj M)) n e).
Proof.
  intros HM. unfold mergeSnippet. simpl JSObject.truthy. cbv iota.
  rewrite (spread_wellFormed _ HM). by apply createDataProperty_wellFormed.
Qed.

Lemma mergeSnippet_wellFormed_witness :
  JSObject.wellFormed
    (mergeSnippet (Some (JObj [("0", JNull); ("7", JNull); ("a", sampleEntry)])) "3"
       sampleEntry).
Proof.
  apply (mergeSnippet_wellFormed [("0", JNull); ("7", JNull); ("a", sampleEntry)]).
  apply (bool_decide_unpack _). by vm_compute.
Defined.

Section MergeEdge.


End MergeEdge.


(** ** The command handler *)
Section HandlerMore.
Context `{Platform}.

Lemma filter_isMessage_files evs :
  Forall (λ e, touchesFiles e = true) evs → filter isMessage evs = [].
Proof.
  induction 1 as [|e evs He _ IH]; [done|].
  rewrite filter_cons, IH. by destruct e.
Qed.

Lemma filter_isMessage_prompts n :
  filter isMessage (take n [namePrompt; prefixPrompt; descriptionPrompt; languagePrompt])
  = [].
Proof. by do 5 (destruct n as [|n]; [done|]). Qed.

End HandlerMore.

(** X19. The command handler never throws, and ends in one of five
    ways.  Without an active editor, or with an empty selection, it shows
    the corresponding error message and does nothing else.  When the flow
    is cancelled it shows no message and leaves the file system as it is.
    When the save returns, the only message is the information message
    naming the snippet, and the snippet file holds the merge.  When the
    save throws, the error is shown to the user and sent to the console
    with the same text, and, unless the save got as far as calling
    [writeFileSync], the content of no file has changed. *)
Theorem createSnippet_outcome `{Platform} (host : Host) (activeTextEditor : option TextEditor)
    (w : World) :
  ∃ w' evs,
    createSnippet host activeTextEditor w = (Ok (), w')
    ∧ trace w' = trace w ++ evs
    ∧ match activeTextEditor with
      | None =>
          evs = [ShowErrorMessage "No active editor"]
          ∧ fs w' = fs w ∧ answers w' = answers w
      | Some editor =>
          if decide (selectedText editor = "")
          then evs = [ShowErrorMessage "No text selected"]
               ∧ fs w' = fs w ∧ answers w' = answers w
          else
            (collectSnippetInfo (document editor) w = (Ok None, w')
             ∧ filter isMessage evs = [] ∧ fs w' = fs w)
            ∨ (∃ info w1 r w2,
                 collectSnippetInfo (document editor) w = (Ok (Some info), w1)
                 ∧ saveSnippet host info (selectedText editor) w1 = (r, w2)
                 ∧ fs w' = fs w2 ∧ answers w' = answers w2
                 ∧ match r with
                   | Ok _ =>
                       filter isMessage evs = successReport (name info)
                       ∧ files (fs w')
                         = <[snippetsPath host (language info)
                             := JSON.stringify
                                  (JObj (mergeSnippet
                                           (snippets
                                              (parseSnippetsFile
                                                 (existingContent (fs w)
                                                    (snippetsPath host (language info)))))
                                           (name info)
                                           (newSnippet info (selectedText editor))))]>
                             (files (fs w))
                   | Throw message =>
                       filter isMessage evs = failureMessages message
                       ∧ (filter (λ e, isWrite e = true) evs = []
                          → files (fs w') = files (fs w))
                   end)
      end.
Proof.
  destruct activeTextEditor as [editor|]; [|by eexists _, _].
  destruct (decide (selectedText editor = "")) as [Hsel|Hsel].
  { unfold createSnippet. rewrite Hsel. by eexists _, _. }
  destruct (collectSnippetInfo_steps (document editor) w) as (r & n & Hflow & _).
  destruct r as [info|].
  - rewrite (createSnippet_collected _ _ _ _ _ Hsel Hflow).
    unfold tryCatch, mbind, M_bind.
    destruct (saveSnippet host info (selectedText editor) _) as [[[]|message] w2] eqn:Hsave.
    + destruct (saveSnippet_outcome _ _ _ _ _ _ Hsave)
        as (Hans & _ & (evs & Htrace & Hevs & _ & _) & Hfiles & _).
      simpl in Htrace, Hfiles. unfold showInformationMessage, emit.
      eexists _, _. split; [done|]. simpl. rewrite Htrace, <- !app_assoc.
      split; [done|]. right. exists info. eexists _, _, _. split; [done|].
      split; [exact Hsave|]. split_and!; [done..| |done].
      rewrite !filter_app, filter_isMessage_prompts, (filter_isMessage_files _ Hevs).
      done.
    + destruct (saveSnippet_outcome _ _ _ _ _ _ Hsave)
        as (Hans & _ & (evs & Htrace & Hevs & _ & Hkeep) & _).
      simpl in Htrace, Hkeep, Hans.
      unfold showErrorMessage, consoleError, emit, errorToString. simpl.
      eexists _, _. split; [done|]. simpl. rewrite Htrace, <- !app_assoc.
      split; [done|]. right. exists info. eexists _, _, _. split; [done|].
      split; [exact Hsave|]. split_and!; [done..| |].
      * rewrite !filter_app, filter_isMessage_prompts, (filter_isMessage_files _ Hevs).
        done.
      * rewrite !filter_app. intros Hnone.
        apply app_eq_nil in Hnone as [_ Hnone]. apply app_eq_nil in Hnone as [Hnone _].
        by apply Hkeep.
  - rewrite (createSnippet_aborted _ _ _ _ Hsel Hflow).
    eexists _, _. split; [done|]. simpl. split; [done|]. left.
    split; [done|]. by rewrite filter_isMessage_prompts.
Qed.


(** ** Parser results and supported languages *)
(** X7. The result of the lenient parser has exactly one of its two
    fields set: either the value the parse mechanism returned without any
    error, and no error message; or no value and an error message that is
    not empty, which happens exactly when the parse mechanism failed. *)
Theorem parseSnippetsFile_exclusive `{Platform} (content : string) :
  (∃ v, parseSnippetsFile content = {| snippets := Some v; error := None |}
        ∧ jsonc_parse content {| jsonc.allowTrailingComma := true |}
          = jsonc.Returned v [])
  ∨ (∃ message,
       parseSnippetsFile content = {| snippets := None; error := Some message |}
       ∧ message ≠ ""
       ∧ failed (jsonc_parse content {| jsonc.allowTrailingComma := true |})).
Proof.
  unfold parseSnippetsFile.
  destruct (jsonc_parse content _) as [v [|e errs]|e]; simpl.
  - left. eauto.
  - right. eexists. split; [done|]. split; [|done].
    unfold formatParseErrors. by rewrite sapp_cons.
  - right. eexists. split; [done|]. split; [|done]. by rewrite sapp_cons.
Qed.

(** X21. The table of supported languages: no identifier is listed
    twice, every label is the identifier followed by a name in
    parentheses, and every identifier is returned unchanged by language
    resolution, both as the language of a document (other than
    [plaintext], which makes the flow ask) and as the reply typed in the
    language box. *)
Theorem supportedLanguages_resolve :
  NoDup (LanguageOption.id <$> supportedLanguages)
  ∧ Forall (λ o,
      labelled o = true
      ∧ ∀ w,
          (LanguageOption.id o ≠ "plaintext" →
           determineLanguage {| languageId := LanguageOption.id o |} w
           = (Ok (Some (LanguageOption.id o)), w))
          ∧ (head (answers w) = Some (Some (LanguageOption.id o)) →
             (determineLanguage {| languageId := "plaintext" |} w).1
             = Ok (Some (LanguageOption.id o)))) supportedLanguages.
Proof.
  assert (Hall : Forall (λ o, labelled o = true
                              ∧ LanguageOption.id o ≠ ""
                              ∧ JSString.toLowerCase (LanguageOption.id o)
                                = LanguageOption.id o) supportedLanguages).
  { apply (bool_decide_unpack _). by vm_compute. }
  split.
  { apply (bool_decide_unpack _). by vm_compute. }
  eapply Forall_impl; [exact Hall|].
  intros o (Hlabel & Hne & Hlower). split; [done|]. intros w. split.
  - intros Hplain. by apply determineLanguage_known.
  - intros Hans. rewrite determineLanguage_asks by (by right). simpl.
    rewrite Hans. simpl. rewrite (truthy_ne _ Hne). simpl. by rewrite Hlower.
Qed.




(** X20. When the directory of the snippet file exists, a save, whether
    it returns or throws, creates no directory and never calls
    [mkdirSync]. *)
Theorem saveSnippet_keeps_directories `{Platform} (host : Host) (info : SnippetInfo)
    (text : string) (w w' : World) (r : Result unit) :
  path_dirname (snippetsPath host (language info)) ∈ dirs (fs w) →
  saveSnippet host info text w = (r, w') →
  dirs (fs w') = dirs (fs w)
  ∧ ∃ evs, trace w' = trace w ++ evs
           ∧ Forall (λ e, ∀ p, e ≠ MkdirSync p) evs.
Proof.
  intros Hdir. destruct w as [[fl ds] a t]. simpl in Hdir. run_save.
  rewrite (bool_decide_eq_true_2 _ Hdir), orb_true_r. simpl.
  repeat case_match; intros; simplify_eq; simpl.
  all: split; [done|].
  all: eexists; split; [by rewrite <- ?app_assoc|by repeat constructor].
Qed.

Lemma saveSnippet_keeps_directories_witness :
  dirs (fs (saveSnippet (H := referencePlatform) sampleHost sampleInfo sampleSelection
              (userTyping brokenHome [])).2)
  = dirs (fs (userTyping brokenHome []))
  ∧ ∃ evs,
      trace (saveSnippet (H := referencePlatform) sampleHost sampleInfo sampleSelection
               (userTyping brokenHome [])).2
      = trace (userTyping brokenHome []) ++ evs
      ∧ Forall (λ e, ∀ p, e ≠ MkdirSync p) evs.
Proof.
  apply (saveSnippet_keeps_directories (H := referencePlatform) sampleHost sampleInfo
           sampleSelection (userTyping brokenHome []) _
           (saveSnippet (H := referencePlatform) sampleHost sampleInfo sampleSelection
              (userTyping brokenHome [])).1).
  - by vm_compute.
  - by destruct (saveSnippet _ _ _ _).
Defined.



(** ** The text of the written file *)

Section WrittenText.

Lemma occursIn_here s b : occursIn s (s +:+ b).
Proof. exists "", b. by rewrite sapp_nil_l. Qed.

Lemma occursIn_app_l s a t : occursIn s t → occursIn s (a +:+ t).
Proof. intros (x & y & ->). exists (a +:+ x), y. by rewrite sapp_assoc. Qed.

Lemma occursIn_app_r s t b : occursIn s t → occursIn s (t +:+ b).
Proof. intros (x & y & ->). exists x, (y +:+ b). by rewrite !sapp_assoc. Qed.

Lemma join_occurs sep l1 x l2 : occursIn x (JSString.join sep (l1 ++ x :: l2)).
Proof.
  induction l1 as [|y l1 IH]; simpl.
  - destruct l2; [exists "", ""; by rewrite sapp_nil_r|apply occursIn_here].
  - destruct (l1 ++ x :: l2) as [|z l] eqn:E; [by destruct l1|].
    by do 2 apply occursIn_app_l.
Qed.

Lemma get_split k v o :
  JSObject.get k o = Some v → ∃ l1 l2, o = l1 ++ (k, v) :: l2.
Proof.
  induction o as [|[k' v'] o IH]; [done|]. simpl.
  destruct (String.eqb_spec k' k) as [->|_].
  - intros [= ->]. by exists [], o.
  - intros (l1 & l2 & ->)%IH. by exists ((k', v') :: l1), l2.
Qed.

(** The text of an array of strings opens with a bracket. *)
Lemma serialize_strings indent ps :
  JSON.serialize indent (JArr (map JStr ps))
  = match ps with
    | [] => "[]"
    | _ => "[" +:+ nl +:+ (indent +:+ JSON.gap)
           +:+ JSString.join ("," +:+ nl +:+ (indent +:+ JSON.gap)) (map JSON.quote ps)
           +:+ nl +:+ indent +:+ "]"
    end.
Proof. destruct ps as [|p ps]; [done|]. simpl. by rewrite map_map. Qed.

Lemma serialize_object indent p props :
  JSON.serialize indent (JObj (p :: props))
  = "{" +:+ nl +:+ (indent +:+ JSON.gap)
    +:+ JSString.join ("," +:+ nl +:+ (indent +:+ JSON.gap))
          (map (λ kv, JSON.quote kv.1 +:+ ": " +:+ JSON.serialize (indent +:+ JSON.gap) kv.2)
             (p :: props))
    +:+ nl +:+ indent +:+ "}".
Proof. reflexivity. Qed.

(** The text of the entry built for the new snippet opens with its prefix
    field, whose value opens with a bracket. *)
Lemma serialize_newSnippet info text :
  ∃ rest,
    JSON.serialize JSON.gap (newSnippet info text)
    = "{" +:+ nl +:+ "    " +:+ JSON.quote "prefix" +:+ ": [" +:+ rest.
Proof.
  unfold newSnippet. rewrite serialize_object.
  cbn [map JSString.join fst snd]. rewrite serialize_strings.
  destruct (prefixes info) as [|p ps]; eexists;
    repeat rewrite ?sapp_assoc, ?sapp_cons, ?sapp_nil_l; reflexivity.
Qed.

Lemma stringify_entry written k v :
  JSObject.get k written = Some v →
  occursIn (JSON.quote k +:+ ": " +:+ JSON.serialize JSON.gap v)
    (JSON.stringify (JObj written)).
Proof.
  intros (l1 & l2 & ->)%get_split. unfold JSON.stringify.
  destruct (l1 ++ (k, v) :: l2) as [|z l] eqn:E; [by destruct l1|].
  rewrite serialize_object, <- E.
  rewrite map_app. cbn [map fst snd]. rewrite sapp_nil_l.
  do 3 apply occursIn_app_l. apply occursIn_app_r.
  apply (join_occurs _ _ (JSON.quote k +:+ ": " +:+ JSON.serialize JSON.gap v)).
Qed.

Lemma occursIn_trans s t u : occursIn s t → occursIn t u → occursIn s u.
Proof.
  intros (a & b & ->) (c & d & ->). exists (c +:+ a), (b +:+ d).
  by rewrite !sapp_assoc.
Qed.

End WrittenText.

(** C9, amended. A save that returns writes the merge of the new entry
    into what the file held.  Under the name of the snippet the file
    holds the entry built for it, in the place of any entry the file had
    under that name, and the prefix of that entry is an array of strings
    for every list of prefixes, one prefix included: its text is a
    bracketed list of quoted strings, and the text of the file holds the
    name followed by an entry that opens with the prefix field and a
    bracket.  An entry the file held under another name is written back
    with the value it had, whatever its prefix is. *)
Theorem new_entry_prefix_is_array `{Platform} (host : Host) (info : SnippetInfo)
    (text : string) (w w' : World) :
  saveSnippet host info text w = (Ok (), w') →
  ∃ written,
    files (fs w') !! snippetsPath host (language info)
    = Some (JSON.stringify (JObj written))
    ∧ written
      = mergeSnippet
          (snippets (parseSnippetsFile
                       (existingContent (fs w) (snippetsPath host (language info)))))
          (name info) (newSnippet info text)
    ∧ JSObject.get (name info) written = Some (newSnippet info text)
    ∧ JSObject.get "prefix" (JSObject.ownProperties (newSnippet info text))
      = Some (JArr (map JStr (prefixes info)))
    ∧ (∀ indent,
         JSON.serialize indent (JArr (map JStr (prefixes info)))
         = match prefixes info with
           | [] => "[]"
           | _ => "[" +:+ nl +:+ (indent +:+ JSON.gap)
                  +:+ JSString.join ("," +:+ nl +:+ (indent +:+ JSON.gap))
                        (map JSON.quote (prefixes info))
                  +:+ nl +:+ indent +:+ "]"
           end)
    ∧ occursIn (JSON.quote (name info) +:+ ": {" +:+ nl +:+ "    "
                +:+ JSON.quote "prefix" +:+ ": [")
        (JSON.stringify (JObj written))
    ∧ (∀ M k,
         snippets (parseSnippetsFile
                     (existingContent (fs w) (snippetsPath host (language info))))
         = Some (JObj M) →
         JSObject.wellFormed M → k ≠ name info →
         JSObject.get k written = JSObject.get k M).
Proof.
  intros Hsave.
  destruct (saveSnippet_outcome _ _ _ _ _ _ Hsave) as (_ & _ & _ & Hfiles & _).
  eexists. split_and!.
  - rewrite Hfiles. apply lookup_insert_eq.
  - reflexivity.
  - apply get_createDataProperty_eq.
  - reflexivity.
  - intros indent. apply serialize_strings.
  - eapply occursIn_trans;
      [|apply (stringify_entry _ (name info) (newSnippet info text)),
          get_createDataProperty_eq].
    destruct (serialize_newSnippet info text) as [rest ->].
    exists "", rest. rewrite sapp_nil_l.
    repeat rewrite ?sapp_assoc, ?sapp_cons, ?sapp_nil_l. reflexivity.
  - intros M k -> HM Hk. unfold mergeSnippet. simpl JSObject.truthy. cbv iota.
    rewrite (spread_wellFormed _ HM). by apply get_createDataProperty_ne.
Qed.


Lemma new_entry_prefix_is_array_witness :
  ∃ written,
    files (fs (saveSnippet (H := referencePlatform) sampleHost onePrefixInfo sampleSelection
                 (userTyping populatedHome [])).2)
      !! snippetsPath (H := referencePlatform) sampleHost (language onePrefixInfo)
    = Some (JSON.stringify (JObj written))
    ∧ written
      = mergeSnippet
          (snippets (parseSnippetsFile (H := referencePlatform)
                       (existingContent (fs (userTyping populatedHome []))
                          (snippetsPath (H := referencePlatform) sampleHost
                             (language onePrefixInfo)))))
          (name onePrefixInfo) (newSnippet onePrefixInfo sampleSelection)
    ∧ JSObject.get (name onePrefixInfo) written
      = Some (newSnippet onePrefixInfo sampleSelection)
    ∧ JSObject.get "prefix" (JSObject.ownProperties (newSnippet onePrefixInfo sampleSelection))
      = Some (JArr (map JStr (prefixes onePrefixInfo)))
    ∧ (∀ indent,
         JSON.serialize indent (JArr (map JStr (prefixes onePrefixInfo)))
         = match prefixes onePrefixInfo with
           | [] => "[]"
           | _ => "[" +:+ nl +:+ (indent +:+ JSON.gap)
                  +:+ JSString.join ("," +:+ nl +:+ (indent +:+ JSON.gap))
                        (map JSON.quote (prefixes onePrefixInfo))
                  +:+ nl +:+ indent +:+ "]"
           end)
    ∧ occursIn (JSON.quote (name onePrefixInfo) +:+ ": {" +:+ nl +:+ "    "
                +:+ JSON.quote "prefix" +:+ ": [")
        (JSON.stringify (JObj written))
    ∧ (∀ M k,
         snippets (parseSnippetsFile (H := referencePlatform)
                     (existingContent (fs (userTyping populatedHome []))
                        (snippetsPath (H := referencePlatform) sampleHost
                           (language onePrefixInfo))))
         = Some (JObj M) →
         JSObject.wellFormed M → k ≠ name onePrefixInfo →
         JSObject.get k written = JSObject.get k M).
Proof.
  apply (new_entry_prefix_is_array (H := referencePlatform) sampleHost onePrefixInfo
           sampleSelection (userTyping populatedHome [])).
  by vm_compute.
Defined.
